(** * SMASH [Action]: a shallow embedding of src/action.cc

    The embedding follows action.cc method by method, in two parts.

    The first part reads the C++ [float] and [double] quantities (weights,
    energies, momenta, the random draw) as rationals [Q]: every operator
    of the source is the corresponding operator of [Q] and every
    comparison the decidable comparison of [Q].  Rounding, infinities and
    NaN are not modelled there, so that part is used only for properties
    of the control flow, of what is emitted, thrown and left unchanged:
    their proofs follow the source's own operations and comparisons and
    use no law of arithmetic other than the order being transitive.

    The second part, [Ieee], embeds the methods whose properties depend on
    the arithmetic itself (the cached total weight, the channel selection,
    the two-body kinematics) on IEEE 754 binary32 and binary64.

    Collaborators whose code is outside action.cc (the particle pool, the
    species registry, the random source, the resonance mass sampler, the
    square root of libm, the logger) appear as records or as parameters of
    the function that calls them.  The particles writer of
    binaryoutputparticles.cc is embedded at the level of the calls it makes
    on its file. *)

From Stdlib Require Import QArith Qabs ZArith String List Lia Lqa.
From stdpp Require Import gmap list.
From Stdlib Require Import Ascii SpecFloat.

Local Open Scope Q_scope.

(** ** Collaborating value types *)

(** Modelled from the spec: the PDG species code (pdgcode.h is not part of
    the sources at hand).  A code is an integer; [PdgCode::invalid()] is the
    explicitly invalid placeholder code. *)
Module PdgCode.
Definition t := Z.
Definition invalid : t := 0%Z.
Definition eqb (a b : t) : bool := Z.eqb a b.
End PdgCode.

(** Modelled from the spec: low-level vector types (threevector.h and
    fourvector.h are not part of the sources at hand); only the operators
    action.cc applies are given. *)
Module ThreeVector.
Record t := mk { x1 : Q; x2 : Q; x3 : Q }.
(* operator*(ThreeVector, double) *)
Definition scale (v : t) (a : Q) : t := mk (x1 v * a) (x2 v * a) (x3 v * a).
(* unary operator- *)
Definition opp (v : t) : t := mk (- x1 v) (- x2 v) (- x3 v).
End ThreeVector.

Module FourVector.
Record t := mk { x0 : Q; x1 : Q; x2 : Q; x3 : Q }.
(* FourVector(): all components zero *)
Definition zero : t := mk 0 0 0 0.
(* FourVector(double, ThreeVector) *)
Definition of_energy_three (e : Q) (v : ThreeVector.t) : t :=
  mk e (ThreeVector.x1 v) (ThreeVector.x2 v) (ThreeVector.x3 v).
Definition threevec (p : t) : ThreeVector.t :=
  ThreeVector.mk (x1 p) (x2 p) (x3 p).
(* operator+= and operator-= *)
Definition add (p q : t) : t :=
  mk (x0 p + x0 q) (x1 p + x1 q) (x2 p + x2 q) (x3 p + x3 q).
Definition sub (p q : t) : t :=
  mk (x0 p - x0 q) (x1 p - x1 q) (x2 p - x2 q) (x3 p - x3 q).
End FourVector.

(** Modelled from the spec: the species registry entry (particletype.h is
    not part of the sources at hand): species code, pole mass, minimum
    allowed mass and stability flag. *)
Module ParticleType.
Record t := mk {
  pdgcode : PdgCode.t;
  mass : Q;
  minimum_mass : Q;
  is_stable : bool
}.
End ParticleType.

(** Modelled from the spec: a particle record (particledata.h is not part
    of the sources at hand): unique id, species, id of the process that
    last altered it, four-momentum and position. *)
Module ParticleData.
Record t := mk {
  id : Z;
  type : ParticleType.t;
  id_process : Z;
  momentum : FourVector.t;
  position : FourVector.t
}.
(* ParticleData(const ParticleType &): a fresh record of that species,
   not yet entered in the pool and not yet given a momentum. *)
Definition of_type (ty : ParticleType.t) : t :=
  mk (-1)%Z ty (-1)%Z FourVector.zero FourVector.zero.
Definition pdgcode (p : t) : PdgCode.t := ParticleType.pdgcode (type p).
Definition set_4momentum (p : t) (m : FourVector.t) : t :=
  mk (id p) (type p) (id_process p) m (position p).
End ParticleData.

Definition ParticleList := list ParticleData.t.

(** Modelled from the spec: the live particle pool (particles.h is not part
    of the sources at hand), queried by id for existence and for the
    current record. *)
Module Particles.
Record t := mk { data_ : gmap Z ParticleData.t }.
Definition has_data (ps : t) (i : Z) : bool :=
  match data_ ps !! i with Some _ => true | None => false end.
Definition data (ps : t) (i : Z) : option ParticleData.t := data_ ps !! i.
End Particles.

(** Modelled from the spec: a weighted branch (processbranch.h is not part
    of the sources at hand): the species of the final state and a weight. *)
Module ProcessBranch.
Record t := mk {
  particle_types : list ParticleType.t;
  weight : Q
}.
(* particle_list(): one fresh particle record per species, in order *)
Definition particle_list (b : t) : ParticleList :=
  map ParticleData.of_type (particle_types b).
End ProcessBranch.

Definition ProcessBranchList := list ProcessBranch.t.

(** ** The Action class: data members, constructor, branch bookkeeping *)

Module Action.

Record t := mk {
  incoming_particles_ : ParticleList;
  outgoing_particles_ : ParticleList;
  subprocesses_ : ProcessBranchList;
  time_of_execution_ : Q;
  total_weight_ : Q
}.

(* Action::Action(const ParticleList &in_part, float time_of_execution) *)
Definition new (in_part : ParticleList) (time_of_execution : Q) : t :=
  mk in_part [] [] time_of_execution 0.

(* float Action::weight() const *)
Definition weight (a : t) : Q := total_weight_ a.

Definition set_total_weight (a : t) (w : Q) : t :=
  mk (incoming_particles_ a) (outgoing_particles_ a) (subprocesses_ a)
     (time_of_execution_ a) w.

Definition set_subprocesses (a : t) (l : ProcessBranchList) : t :=
  mk (incoming_particles_ a) (outgoing_particles_ a) l
     (time_of_execution_ a) (total_weight_ a).

Definition set_outgoing (a : t) (l : ParticleList) : t :=
  mk (incoming_particles_ a) l (subprocesses_ a)
     (time_of_execution_ a) (total_weight_ a).

(* void Action::add_process(ProcessBranch p) *)
Definition add_process (p : ProcessBranch.t) (a : t) : t :=
  let a := set_total_weight a (total_weight_ a + ProcessBranch.weight p) in
  set_subprocesses a (subprocesses_ a ++ [p]).

(* the loop of the adopt path: the list is already in place, only the
   cached total moves *)
Fixpoint add_weights (procs : ProcessBranchList) (a : t) : t :=
  match procs with
  | [] => a
  | proc :: rest =>
      add_weights rest
        (set_total_weight a (total_weight_ a + ProcessBranch.weight proc))
  end.

(* the loop of the append path: total and list move together *)
Fixpoint append_each (pv : ProcessBranchList) (a : t) : t :=
  match pv with
  | [] => a
  | proc :: rest =>
      let a :=
        set_total_weight a (total_weight_ a + ProcessBranch.weight proc) in
      append_each rest (set_subprocesses a (subprocesses_ a ++ [proc]))
  end.

(* void Action::add_processes(ProcessBranchList pv) *)
Definition add_processes (pv : ProcessBranchList) (a : t) : t :=
  match subprocesses_ a with
  | [] =>
      let a := set_subprocesses a pv in
      add_weights (subprocesses_ a) a
  | _ :: _ => append_each pv a
  end.

(* the loop of is_valid, with its two early returns *)
Fixpoint is_valid_loop (particles : Particles.t) (parts : ParticleList)
  : bool :=
  match parts with
  | [] => true
  | part :: rest =>
      if negb (Particles.has_data particles (ParticleData.id part))
      then false
      else
        match Particles.data particles (ParticleData.id part) with
        | None => false
        | Some live =>
            if negb (Z.eqb (ParticleData.id_process live)
                           (ParticleData.id_process part))
            then false
            else is_valid_loop particles rest
        end
  end.

End Action.

(** ** Effects: diagnostics, calls of the mass sampler, exceptions *)

Inductive LogLevel := Fatal | Warn | Info | Debug.

(** One streamed argument of a logger call. *)
Inductive LogArg :=
| LSourceLocation
| LStr (s : string)
| LNum (q : Q)
| LSize (n : N)
| LPdg (c : PdgCode.t)
| LAngles (v : ThreeVector.t)
| LParticle (p : ParticleData.t)
| LAction (a : Action.t).

Inductive Event :=
| Log (level : LogLevel) (args : list LogArg)
| SampleResonanceMass (type_resonance type_stable : ParticleType.t)
                      (cms_energy : Q).

Inductive Exception :=
| runtime_error (what : string)
| InvalidResonanceFormation (cms_energy min_a min_b : Q)
                            (pdg_a pdg_b : PdgCode.t)
| assertion_failure.

Inductive Outcome (A : Type) :=
| Returned (a : A)
| Thrown (e : Exception).
Arguments Returned {A} a.
Arguments Thrown {A} e.

(** The result of running a method on an Action: what it emitted, the
    Action it leaves behind, and whether it returned or threw. *)
Record Run (A : Type) := mkRun {
  events : list Event;
  final : Action.t;
  outcome : Outcome A
}.
Arguments mkRun {A} _ _ _.
Arguments events {A} _.
Arguments final {A} _.
Arguments outcome {A} _.

Definition M (A : Type) : Type := Action.t -> Run A.

Definition ret {A} (x : A) : M A := fun this => mkRun [] this (Returned x).

Definition bind {A B} (m : M A) (f : A -> M B) : M B :=
  fun this =>
    let r := m this in
    match outcome r with
    | Returned x =>
        let r' := f x (final r) in
        mkRun (events r ++ events r') (final r') (outcome r')
    | Thrown e => mkRun (events r) (final r) (Thrown e)
    end.

Notation "x <- m ;; k" := (bind m (fun x => k))
  (at level 65, m at next level, right associativity).
Notation "m ;;; k" := (bind m (fun _ => k))
  (at level 65, right associativity).

Definition get : M Action.t := fun this => mkRun [] this (Returned this).
Definition put (a : Action.t) : M unit := fun _ => mkRun [] a (Returned tt).
Definition throw {A} (e : Exception) : M A :=
  fun this => mkRun [] this (Thrown e).
Definition log (level : LogLevel) (args : list LogArg) : M unit :=
  fun this => mkRun [Log level args] this (Returned tt).
Definition when (b : bool) (m : M unit) : M unit := if b then m else ret tt.

(* a < b on rationals, as a boolean *)
Definition Qlt_bool (a b : Q) : bool := negb (Qle_bool b a).

(* the newline of the message strings *)
Definition nl : string := String (Ascii.ascii_of_nat 10) EmptyString.

(** ** Channel selection, two-body kinematics, conservation check *)

Module ActionMethods.
Import Action.

(* bool Action::is_valid(const Particles &particles) const *)
Definition is_valid (particles : Particles.t) : M bool :=
  this <- get ;;
  ret (is_valid_loop particles (incoming_particles_ this)).

(* the test that makes the selection loop [continue] *)
Definition skipped (proc : ProcessBranch.t) : bool :=
  Nat.ltb (length (ProcessBranch.particle_types proc)) 1
  || match ProcessBranch.particle_types proc with
     | [] => false
     | ty0 :: _ => PdgCode.eqb (ParticleType.pdgcode ty0) PdgCode.invalid
     end.

(* the loop of choose_channel: the accumulated probability when the loop
   is left, and the branch at which it returned, if it did *)
Fixpoint choose_channel_loop (total_weight random_interaction : Q)
    (procs : ProcessBranchList) (interaction_probability : Q)
  : Q * option ProcessBranch.t :=
  match procs with
  | [] => (interaction_probability, None)
  | proc :: rest =>
      if skipped proc
      then choose_channel_loop total_weight random_interaction rest
             interaction_probability
      else
        let interaction_probability :=
          interaction_probability + ProcessBranch.weight proc / total_weight
        in
        if Qle_bool random_interaction interaction_probability
        then (interaction_probability, Some proc)
        else choose_channel_loop total_weight random_interaction rest
               interaction_probability
  end.

(* ParticleList Action::choose_channel(); [random_interaction] is the
   value Random::canonical() hands out *)
Definition choose_channel (random_interaction : Q) : M ParticleList :=
  this <- get ;;
  match choose_channel_loop (total_weight_ this) random_interaction
          (subprocesses_ this) 0 with
  | (_, Some proc) => ret (ProcessBranch.particle_list proc)
  | (interaction_probability, None) =>
      log Fatal [LSourceLocation; LStr "Problem in choose_channel: ";
                 LSize (N.of_nat (length (subprocesses_ this)));
                 LStr " "; LNum interaction_probability; LStr " ";
                 LNum (total_weight_ this); LStr nl; LAction this] ;;;
      throw (runtime_error "problem in choose_channel")
  end.

Section Collaborators.
(* Action::sqrt_s(), declared in action.h *)
Variable sqrt_s : Action.t -> Q.
(* sample_resonance_mass of resonances.h *)
Variable sample_resonance_mass : ParticleType.t -> ParticleType.t -> Q -> Q.
(* std::sqrt *)
Variable sqrt : Q -> Q.
(* the direction Angles::threevec() yields once
   distribute_isotropically() has drawn it *)
Variable phitheta : ThreeVector.t.
(* the tolerance really_small of constants.h *)
Variable really_small : Q.

Definition call_sample_resonance_mass
    (type_resonance type_stable : ParticleType.t) (cms_energy : Q) : M Q :=
  fun this =>
    mkRun [SampleResonanceMass type_resonance type_stable cms_energy] this
      (Returned (sample_resonance_mass type_resonance type_stable
                   cms_energy)).

(* the two masses once the resonance, if any, has been sampled *)
Definition sample_masses (t_a t_b : ParticleType.t) (cms_energy : Q)
  : M (Q * Q) :=
  let mass_a := ParticleType.mass t_a in
  let mass_b := ParticleType.mass t_b in
  if negb (ParticleType.is_stable t_a) then
    mass_a <- call_sample_resonance_mass t_a t_b cms_energy ;;
    ret (mass_a, mass_b)
  else if negb (ParticleType.is_stable t_b) then
    mass_b <- call_sample_resonance_mass t_b t_a cms_energy ;;
    ret (mass_a, mass_b)
  else ret (mass_a, mass_b).

(* void Action::sample_cms_momenta() *)
Definition sample_cms_momenta : M unit :=
  this <- get ;;
  match outgoing_particles_ this with
  | [p_a; p_b] =>
      let t_a := ParticleData.type p_a in
      let t_b := ParticleData.type p_b in
      let cms_energy := sqrt_s this in
      if Qlt_bool cms_energy
           (ParticleType.minimum_mass t_a + ParticleType.minimum_mass t_b)
      then
        throw (InvalidResonanceFormation cms_energy
                 (ParticleType.minimum_mass t_a)
                 (ParticleType.minimum_mass t_b)
                 (ParticleData.pdgcode p_a) (ParticleData.pdgcode p_b))
      else
        masses <- sample_masses t_a t_b cms_energy ;;
        let mass_a := fst masses in
        let mass_b := snd masses in
        let energy_a :=
          (cms_energy * cms_energy + mass_a * mass_a - mass_b * mass_b)
          / (2 * cms_energy) in
        let momentum_radial := sqrt (energy_a * energy_a - mass_a * mass_a)
        in
        when (negb (Qlt_bool 0 momentum_radial))
          (log Warn [LStr "radial momenta "; LNum momentum_radial]) ;;;
        when (negb (Qlt_bool mass_a energy_a))
          (log Info [LStr "Particle "; LPdg (ParticleType.pdgcode t_a);
                     LStr " radial momenta "; LNum momentum_radial;
                     LAngles phitheta] ;;;
           log Info [LStr "Etot: "; LNum cms_energy; LStr " m_a: ";
                     LNum mass_a; LStr " m_b: "; LNum mass_b;
                     LStr " E_a: "; LNum energy_a]) ;;;
        let p_a' :=
          ParticleData.set_4momentum p_a
            (FourVector.of_energy_three energy_a
               (ThreeVector.scale phitheta momentum_radial)) in
        let p_b' :=
          ParticleData.set_4momentum p_b
            (FourVector.of_energy_three (cms_energy - energy_a)
               (ThreeVector.scale (ThreeVector.opp phitheta)
                  momentum_radial)) in
        put (set_outgoing this [p_a'; p_b']) ;;;
        log Debug [LStr "p_a: "; LParticle p_a';
                   LStr (nl ++ "p_b: "); LParticle p_b']
  | _ => throw assertion_failure
  end.

(* the two summation loops of check_conservation *)
Definition momentum_difference (this : Action.t) : FourVector.t :=
  let d :=
    fold_left (fun d part => FourVector.add d (ParticleData.momentum part))
      (incoming_particles_ this) FourVector.zero in
  fold_left (fun d p => FourVector.sub d (ParticleData.momentum p))
    (outgoing_particles_ this) d.

(* void Action::check_conservation(const size_t &id_process) const *)
Definition check_conservation (id_process : N) : M unit :=
  this <- get ;;
  let d := momentum_difference this in
  when (Qlt_bool really_small (Qabs (FourVector.x0 d)))
    (log Warn [LStr "Process "; LSize id_process;
               LStr (nl ++ "E conservation violation ");
               LNum (FourVector.x0 d)]) ;;;
  when (Qlt_bool really_small (Qabs (FourVector.x1 d)))
    (log Warn [LStr "px conservation violation ";
               LNum (FourVector.x1 d)]) ;;;
  when (Qlt_bool really_small (Qabs (FourVector.x2 d)))
    (log Warn [LStr "py conservation violation ";
               LNum (FourVector.x2 d)]) ;;;
  when (Qlt_bool really_small (Qabs (FourVector.x3 d)))
    (log Warn [LStr "pz conservation violation ";
               LNum (FourVector.x3 d)]).
End Collaborators.

End ActionMethods.

(** ** Vocabulary of the properties *)

(** One call that fills the branch collection. *)
Inductive FillCall :=
| CallAddProcess (p : ProcessBranch.t)
| CallAddProcesses (pv : ProcessBranchList).

Definition fill (a : Action.t) (c : FillCall) : Action.t :=
  match c with
  | CallAddProcess p => Action.add_process p a
  | CallAddProcesses pv => Action.add_processes pv a
  end.

(** An Action built from a particle list and then filled by a sequence of
    calls, in the order given. *)
Definition built (in_part : ParticleList) (time_of_execution : Q)
    (calls : list FillCall) : Action.t :=
  fold_left fill calls (Action.new in_part time_of_execution).

(** An incoming snapshot is still live: the pool holds its id, and the
    record there carries the id_process the snapshot recorded. *)
Definition live_and_unmodified (particles : Particles.t)
    (part : ParticleData.t) : Prop :=
  exists live,
    Particles.data_ particles !! ParticleData.id part = Some live
    /\ ParticleData.id_process live = ParticleData.id_process part.

(** An incoming snapshot is stale: its id is gone from the pool, or the
    record there carries another id_process. *)
Definition gone_or_modified (particles : Particles.t)
    (part : ParticleData.t) : Prop :=
  Particles.data_ particles !! ParticleData.id part = None
  \/ exists live,
       Particles.data_ particles !! ParticleData.id part = Some live
       /\ ParticleData.id_process live <> ParticleData.id_process part.

(** A branch kept out of the selection: its species list is empty, or its
    first species carries the invalid placeholder code. *)
Definition invalid_branch (b : ProcessBranch.t) : Prop :=
  match ProcessBranch.particle_types b with
  | [] => True
  | ty0 :: _ => ParticleType.pdgcode ty0 = PdgCode.invalid
  end.

(** The branches the selection loop considers. *)
Definition selectable_branches (l : ProcessBranchList) : ProcessBranchList :=
  List.filter (fun b => negb (ActionMethods.skipped b)) l.

(** The cumulative probabilities the selection loop compares the draw
    with, one per selectable branch, in the order of the branches. *)
Fixpoint running_probabilities (W : Q) (l : ProcessBranchList) (acc : Q)
  : list Q :=
  match l with
  | [] => []
  | b :: rest =>
      if ActionMethods.skipped b then running_probabilities W rest acc
      else
        (acc + ProcessBranch.weight b / W)
        :: running_probabilities W rest (acc + ProcessBranch.weight b / W)
  end.

(** What choose_channel leaves behind when it gives up: one fatal
    diagnostic and the exception. *)
Definition selection_failure (a : Action.t) (interaction_probability : Q)
  : Run ParticleList :=
  mkRun
    [Log Fatal [LSourceLocation; LStr "Problem in choose_channel: ";
                LSize (N.of_nat (length (Action.subprocesses_ a)));
                LStr " "; LNum interaction_probability; LStr " ";
                LNum (Action.total_weight_ a); LStr nl; LAction a]]
    a (Thrown (runtime_error "problem in choose_channel")).

(** The calls of the resonance mass sampler among the emitted events, in
    order: sampled species, partner species, energy. *)
Definition sampler_calls (evs : list Event)
  : list (ParticleType.t * ParticleType.t * Q) :=
  flat_map (fun e => match e with
                     | SampleResonanceMass ta tb c => [(ta, tb, c)]
                     | Log _ _ => []
                     end) evs.

(** The two-body final state in the centre-of-mass frame for given masses:
    E_a = (s + m_a^2 - m_b^2) / (2 sqrt_s), E_b = sqrt_s - E_a,
    p = sqrt (E_a^2 - m_a^2), A along the drawn direction and B against
    it. *)
Definition energy_a (cms_energy mass_a mass_b : Q) : Q :=
  (cms_energy * cms_energy + mass_a * mass_a - mass_b * mass_b)
  / (2 * cms_energy).

Definition momentum_radial (sqrt : Q -> Q) (cms_energy mass_a mass_b : Q)
  : Q :=
  sqrt (energy_a cms_energy mass_a mass_b * energy_a cms_energy mass_a mass_b
        - mass_a * mass_a).

Definition back_to_back (sqrt : Q -> Q) (phitheta : ThreeVector.t)
    (cms_energy mass_a mass_b : Q) (p_a p_b : ParticleData.t)
  : ParticleList :=
  [ ParticleData.set_4momentum p_a
      (FourVector.of_energy_three (energy_a cms_energy mass_a mass_b)
         (ThreeVector.scale phitheta
            (momentum_radial sqrt cms_energy mass_a mass_b)));
    ParticleData.set_4momentum p_b
      (FourVector.of_energy_three
         (cms_energy - energy_a cms_energy mass_a mass_b)
         (ThreeVector.scale (ThreeVector.opp phitheta)
            (momentum_radial sqrt cms_energy mass_a mass_b))) ].

(** The masses the kinematics works with: the first species is sampled
    when it is unstable; the second only when the first is stable and the
    second is not; a species that is not sampled has its pole mass. *)
Definition masses_used (sample : ParticleType.t -> ParticleType.t -> Q -> Q)
    (t_a t_b : ParticleType.t) (cms_energy : Q) : Q * Q :=
  match ParticleType.is_stable t_a, ParticleType.is_stable t_b with
  | false, _ => (sample t_a t_b cms_energy, ParticleType.mass t_b)
  | true, false => (ParticleType.mass t_a, sample t_b t_a cms_energy)
  | true, true => (ParticleType.mass t_a, ParticleType.mass t_b)
  end.

Definition calls_expected (t_a t_b : ParticleType.t) (cms_energy : Q)
  : list (ParticleType.t * ParticleType.t * Q) :=
  match ParticleType.is_stable t_a, ParticleType.is_stable t_b with
  | false, _ => [(t_a, t_b, cms_energy)]
  | true, false => [(t_b, t_a, cms_energy)]
  | true, true => []
  end.

(** A diagnostic names the process id when the id is among its streamed
    arguments. *)
Definition names_process (id_process : N) (e : Event) : Prop :=
  match e with
  | Log _ args => In (LSize id_process) args
  | SampleResonanceMass _ _ _ => False
  end.

(** ** Concrete inputs *)

Module Examples.
(* a stable species and a resonance *)
Definition pion : ParticleType.t :=
  ParticleType.mk 211%Z (138 # 1000) (138 # 1000) true.
Definition rho : ParticleType.t :=
  ParticleType.mk 113%Z (776 # 1000) (276 # 1000) false.
(* the invalid placeholder species *)
Definition nothing : ParticleType.t :=
  ParticleType.mk PdgCode.invalid 0 0 true.

Definition incoming_a : ParticleData.t :=
  ParticleData.mk 1%Z pion 5%Z (FourVector.mk 1 0 0 (1 # 2)) FourVector.zero.
Definition incoming_b : ParticleData.t :=
  ParticleData.mk 2%Z pion 6%Z (FourVector.mk 1 0 0 (- (1 # 2)))
    FourVector.zero.

Definition elastic : ProcessBranch.t := ProcessBranch.mk [pion; pion] 1.
Definition formation : ProcessBranch.t := ProcessBranch.mk [rho] 3.
Definition no_interaction : ProcessBranch.t := ProcessBranch.mk [nothing] 1.

(* one selectable branch *)
Definition single : Action.t :=
  built [incoming_a; incoming_b] 0 [CallAddProcess elastic].
(* two selectable branches, weights 1 and 3 *)
Definition two_channels : Action.t :=
  built [incoming_a; incoming_b] 0
    [CallAddProcess elastic; CallAddProcesses [formation]].
(* a selectable branch and a placeholder branch of equal weight *)
Definition with_placeholder : Action.t :=
  built [incoming_a; incoming_b] 0
    [CallAddProcesses [elastic; no_interaction]].

Definition wide : ParticleType.t :=
  ParticleType.mk 2214%Z (6 # 10) (1 # 2) false.

(* an Action resolved to a two-particle final state *)
Definition resolved (ta tb : ParticleType.t) : Action.t :=
  Action.set_outgoing single
    [ParticleData.of_type ta; ParticleData.of_type tb].

Definition sqrt_s_two (_ : Action.t) : Q := 2.
Definition sampler (_ _ : ParticleType.t) (_ : Q) : Q := 55 # 100.
(* a stand-in for std::sqrt in the examples: the integer floor roots of
   numerator and denominator of the reduced fraction (4/5 for 16/25, but
   1/2 for 3/4) *)
Definition sqrt (q : Q) : Q :=
  Z.sqrt (Qnum (Qred q)) # Pos.sqrt (Qden (Qred q)).
Definition along_z : ThreeVector.t := ThreeVector.mk 0 0 1.
Definition tolerance : Q := 1 # 1000000.

(* an Action whose final state carries less momentum along x than came
   in *)
Definition px_leak : Action.t :=
  Action.set_outgoing
    (Action.new
       [ParticleData.mk 1%Z pion 5%Z (FourVector.mk 1 1 0 0)
          FourVector.zero] 0)
    [ParticleData.mk 3%Z pion 9%Z (FourVector.mk 1 0 0 0)
       FourVector.zero].
End Examples.

(** ** A further method of action.cc *)

Module ActionQueries.
Import Action.

(* ParticleList Action::incoming_particles() const *)
Definition incoming_particles : M ParticleList :=
  this <- get ;;
  ret (fold_left (fun l part => l ++ [part]) (incoming_particles_ this) []).

End ActionQueries.

(** ** The particles writer of binaryoutputparticles.cc *)

(** The writer is embedded at the level of the calls it makes on its file:
    std::fwrite of one char, the write overloads of the base class (whose
    code is in another file) with the argument they are given, and
    std::fflush. *)
Module BinaryOutputParticles.

Inductive Written :=
| FwriteChar (c : Ascii.ascii)
| WriteSize (n : nat)
| WriteParticles (particles : Particles.t)
| WriteInt (x : Z)
| WriteDouble (x : Q).

(* file_: what has been handed to the stream, split at the last flush *)
Record File := mkFile {
  flushed : list Written;
  pending : list Written
}.

Definition fwrite (w : Written) (f : File) : File :=
  mkFile (flushed f) (pending f ++ [w]).

Definition fflush (f : File) : File :=
  mkFile (flushed f ++ pending f) [].

(* everything written so far, in order *)
Definition contents (f : File) : list Written := flushed f ++ pending f.

Record t := mk {
  file_ : File;
  only_final_ : bool
}.

Definition on_file (g : File -> File) (o : t) : t :=
  mk (g (file_ o)) (only_final_ o).

(* Particles::size() *)
Definition particles_size (particles : Particles.t) : nat :=
  size (Particles.data_ particles).

(* the three statements that write a particle block *)
Definition write_block (particles : Particles.t) (o : t) : t :=
  let o := on_file (fwrite (FwriteChar "p"%char)) o in
  let o := on_file (fwrite (WriteSize (particles_size particles))) o in
  on_file (fwrite (WriteParticles particles)) o.

(* void BinaryOutputParticles::at_eventstart(const Particles &, const int) *)
Definition at_eventstart (particles : Particles.t) (event_number : Z)
    (o : t) : t :=
  if negb (only_final_ o) then write_block particles o else o.

(* void BinaryOutputParticles::at_eventend(const Particles &, const int,
                                           double) *)
Definition at_eventend (particles : Particles.t) (event_number : Z)
    (impact_parameter : Q) (o : t) : t :=
  let o := if only_final_ o then write_block particles o else o in
  let o := on_file (fwrite (FwriteChar "f"%char)) o in
  let o := on_file (fwrite (WriteInt event_number)) o in
  let o := on_file (fwrite (WriteDouble impact_parameter)) o in
  on_file fflush o.

(* void BinaryOutputParticles::at_intermediate_time(const Particles &,
                                                    const Clock &,
                                                    const DensityParameters &) *)
Definition at_intermediate_time (particles : Particles.t) (o : t) : t :=
  if negb (only_final_ o) then write_block particles o else o.

(** One call of the output interface, and a run of calls in order. *)
Inductive Call :=
| AtEventStart (particles : Particles.t) (event_number : Z)
| AtIntermediateTime (particles : Particles.t)
| AtEventEnd (particles : Particles.t) (event_number : Z)
             (impact_parameter : Q).

Definition call (o : t) (c : Call) : t :=
  match c with
  | AtEventStart ps n => at_eventstart ps n o
  | AtIntermediateTime ps => at_intermediate_time ps o
  | AtEventEnd ps n b => at_eventend ps n b o
  end.

Definition calls (cs : list Call) (o : t) : t := fold_left call cs o.

(** What a reader of the file gets back: particle blocks and event-end
    lines. *)
Inductive Block :=
| ParticleBlock (particles : Particles.t)
| EventEnd (event_number : Z) (impact_parameter : Q).

(** Reading the stream back: a block is a 'p' with a count and that many
    particles, or an 'f' with an event number and an impact parameter;
    anything else is malformed. *)
Fixpoint decode (l : list Written) : option (list Block) :=
  match l with
  | [] => Some []
  | FwriteChar c :: rest =>
      if Ascii.eqb c "p"%char then
        match rest with
        | WriteSize n :: WriteParticles ps :: rest' =>
            if Nat.eqb n (particles_size ps)
            then option_map (cons (ParticleBlock ps)) (decode rest')
            else None
        | _ => None
        end
      else if Ascii.eqb c "f"%char then
        match rest with
        | WriteInt n :: WriteDouble b :: rest' =>
            option_map (cons (EventEnd n b)) (decode rest')
        | _ => None
        end
      else None
  | _ => None
  end.

(** The blocks a call contributes, by the only_final setting. *)
Definition blocks_of (only_final : bool) (c : Call) : list Block :=
  match c with
  | AtEventStart ps _ | AtIntermediateTime ps =>
      if only_final then [] else [ParticleBlock ps]
  | AtEventEnd ps n b =>
      (if only_final then [ParticleBlock ps] else []) ++ [EventEnd n b]
  end.

End BinaryOutputParticles.


(** ** Further concrete inputs *)

Module MoreExamples.
(* a stable species of mass 3/5 *)
Definition nucleon : ParticleType.t :=
  ParticleType.mk 2112%Z (6 # 10) (6 # 10) true.

(* two particles approaching each other along z, one at x = 1 and one at
   x = 3; their four-momenta add up to (2, 0, 0, 0) *)
Definition left : ParticleData.t :=
  ParticleData.mk 1%Z nucleon 5%Z (FourVector.mk 1 0 0 (1 # 2))
    (FourVector.mk 0 1 0 0).
Definition right : ParticleData.t :=
  ParticleData.mk 2%Z nucleon 6%Z (FourVector.mk 1 0 0 (- (1 # 2)))
    (FourVector.mk 0 3 0 0).

(* the left particle after an elastic scattering in process 8 *)
Definition left_scattered : ParticleData.t :=
  ParticleData.mk 1%Z nucleon 8%Z (FourVector.mk 1 0 (1 # 2) 0)
    (FourVector.mk 0 1 0 0).

(* a bystander *)
Definition other : ParticleData.t :=
  ParticleData.mk 7%Z Examples.pion 0%Z (FourVector.mk 1 0 0 0)
    FourVector.zero.

Definition pool : Particles.t :=
  Particles.mk (<[1%Z := left]> (<[2%Z := right]> (∅ : gmap Z ParticleData.t))).

Definition collision : Action.t :=
  built [left; right] 0 [CallAddProcess Examples.elastic].

(* the collision resolved to a pair of nucleons *)
Definition resolved : Action.t :=
  Action.set_outgoing collision
    [ParticleData.of_type nucleon; ParticleData.of_type nucleon].

(* only placeholder branches *)
Definition nothing_to_select : Action.t :=
  built [left; right] 0 [CallAddProcesses [Examples.no_interaction]].

(* an Action whose final state carries one unit of energy less than came
   in *)
Definition energy_leak : Action.t :=
  Action.set_outgoing
    (Action.new
       [ParticleData.mk 1%Z Examples.pion 5%Z (FourVector.mk 2 0 0 0)
          FourVector.zero] 0)
    [ParticleData.mk 3%Z Examples.pion 9%Z (FourVector.mk 1 0 0 0)
       FourVector.zero].
End MoreExamples.

(** * The arithmetic of the source: IEEE 754 binary32 and binary64

    Where a property depends on how numbers are added, divided or rounded,
    the methods are embedded once more on the floating-point formats the
    source declares: [float] is binary32, [double] is binary64, with the
    operations of [SpecFloat] (round to nearest, ties to even; infinities
    and NaN included). *)

Module Ieee.

(* C++ float *)
Module F32.
Definition t := spec_float.
Definition zero : t := S754_zero false.
Definition add : t -> t -> t := SFadd 24 128.
Definition div : t -> t -> t := SFdiv 24 128.
(* an integer as a float *)
Definition of_Z (n : Z) : t := binary_normalize 24 128 n 0 false.
End F32.

(* C++ double *)
Module F64.
Definition t := spec_float.
Definition zero : t := S754_zero false.
Definition add : t -> t -> t := SFadd 53 1024.
Definition sub : t -> t -> t := SFsub 53 1024.
Definition mul : t -> t -> t := SFmul 53 1024.
Definition div : t -> t -> t := SFdiv 53 1024.
Definition sqrt : t -> t := SFsqrt 53 1024.
Definition opp : t -> t := SFopp.
Definition ltb : t -> t -> bool := SFltb.
Definition leb : t -> t -> bool := SFleb.
Definition eqb : t -> t -> bool := SFeqb.
(* an integer as a double *)
Definition of_Z (n : Z) : t := binary_normalize 53 1024 n 0 false.
(* the literal 2.0 *)
Definition two : t := of_Z 2.
(* the conversion of a float operand to double; it is exact *)
Definition of_float (x : F32.t) : t :=
  match x with
  | S754_finite s m e => binary_normalize 53 1024 (cond_Zopp s (Zpos m)) e s
  | _ => x
  end.
End F64.

(** The rational number a finite floating-point datum stands for. *)
Definition value (x : spec_float) : Q :=
  match x with
  | S754_finite s m e => inject_Z (cond_Zopp s (Zpos m)) * Qpower 2 e
  | _ => 0
  end.

(** Modelled from the spec: the collaborating value types, as in the first
    part, with double components. *)
Module ThreeVector.
Record t := mk { x1 : F64.t; x2 : F64.t; x3 : F64.t }.
(* operator*(ThreeVector, double) *)
Definition scale (v : t) (a : F64.t) : t :=
  mk (F64.mul (x1 v) a) (F64.mul (x2 v) a) (F64.mul (x3 v) a).
(* unary operator- *)
Definition opp (v : t) : t := mk (F64.opp (x1 v)) (F64.opp (x2 v)) (F64.opp (x3 v)).
End ThreeVector.

Module FourVector.
Record t := mk { x0 : F64.t; x1 : F64.t; x2 : F64.t; x3 : F64.t }.
Definition zero : t := mk F64.zero F64.zero F64.zero F64.zero.
(* FourVector(double, ThreeVector) *)
Definition of_energy_three (e : F64.t) (v : ThreeVector.t) : t :=
  mk e (ThreeVector.x1 v) (ThreeVector.x2 v) (ThreeVector.x3 v).
Definition threevec (p : t) : ThreeVector.t :=
  ThreeVector.mk (x1 p) (x2 p) (x3 p).
End FourVector.

(** Modelled from the spec: the species registry entry; [mass] and
    [minimum_mass] are the values mass() and minimum_mass() hand to the
    double arithmetic of sample_cms_momenta. *)
Module ParticleType.
Record t := mk {
  pdgcode : PdgCode.t;
  mass : F64.t;
  minimum_mass : F64.t;
  is_stable : bool
}.
End ParticleType.

Module ParticleData.
Record t := mk {
  id : Z;
  type : ParticleType.t;
  id_process : Z;
  momentum : FourVector.t;
  position : FourVector.t
}.
Definition of_type (ty : ParticleType.t) : t :=
  mk (-1)%Z ty (-1)%Z FourVector.zero FourVector.zero.
Definition pdgcode (p : t) : PdgCode.t := ParticleType.pdgcode (type p).
Definition set_4momentum (p : t) (m : FourVector.t) : t :=
  mk (id p) (type p) (id_process p) m (position p).
End ParticleData.

Definition ParticleList := list ParticleData.t.

(** Modelled from the spec: a weighted branch; the weight is a float, as
    the total it is added to. *)
Module ProcessBranch.
Record t := mk {
  particle_types : list ParticleType.t;
  weight : F32.t
}.
Definition particle_list (b : t) : ParticleList :=
  map ParticleData.of_type (particle_types b).
End ProcessBranch.

Definition ProcessBranchList := list ProcessBranch.t.

Module Action.
Record t := mk {
  incoming_particles_ : ParticleList;
  outgoing_particles_ : ParticleList;
  subprocesses_ : ProcessBranchList;
  time_of_execution_ : F32.t;
  total_weight_ : F32.t
}.

(* Action::Action(const ParticleList &in_part, float time_of_execution):
   total_weight_(0.) *)
Definition new (in_part : ParticleList) (time_of_execution : F32.t) : t :=
  mk in_part [] [] time_of_execution F32.zero.

(* float Action::weight() const *)
Definition weight (a : t) : F32.t := total_weight_ a.

Definition set_total_weight (a : t) (w : F32.t) : t :=
  mk (incoming_particles_ a) (outgoing_particles_ a) (subprocesses_ a)
     (time_of_execution_ a) w.

Definition set_subprocesses (a : t) (l : ProcessBranchList) : t :=
  mk (incoming_particles_ a) (outgoing_particles_ a) l
     (time_of_execution_ a) (total_weight_ a).

Definition set_outgoing (a : t) (l : ParticleList) : t :=
  mk (incoming_particles_ a) l (subprocesses_ a)
     (time_of_execution_ a) (total_weight_ a).

(* void Action::add_process(ProcessBranch p) *)
Definition add_process (p : ProcessBranch.t) (a : t) : t :=
  let a :=
    set_total_weight a (F32.add (total_weight_ a) (ProcessBranch.weight p)) in
  set_subprocesses a (subprocesses_ a ++ [p]).

(* the loop of the adopt path *)
Fixpoint add_weights (procs : ProcessBranchList) (a : t) : t :=
  match procs with
  | [] => a
  | proc :: rest =>
      add_weights rest
        (set_total_weight a
           (F32.add (total_weight_ a) (ProcessBranch.weight proc)))
  end.

(* the loop of the append path *)
Fixpoint append_each (pv : ProcessBranchList) (a : t) : t :=
  match pv with
  | [] => a
  | proc :: rest =>
      let a :=
        set_total_weight a
          (F32.add (total_weight_ a) (ProcessBranch.weight proc)) in
      append_each rest (set_subprocesses a (subprocesses_ a ++ [proc]))
  end.

(* void Action::add_processes(ProcessBranchList pv) *)
Definition add_processes (pv : ProcessBranchList) (a : t) : t :=
  match subprocesses_ a with
  | [] =>
      let a := set_subprocesses a pv in
      add_weights (subprocesses_ a) a
  | _ :: _ => append_each pv a
  end.
End Action.

(** Diagnostics, sampler calls and exceptions, with floating-point
    arguments. *)
Inductive LogArg :=
| LSourceLocation
| LStr (s : string)
| LNum (x : spec_float)
| LSize (n : N)
| LPdg (c : PdgCode.t)
| LAngles (v : ThreeVector.t)
| LParticle (p : ParticleData.t)
| LAction (a : Action.t).

Inductive Event :=
| Log (level : LogLevel) (args : list LogArg)
| SampleResonanceMass (type_resonance type_stable : ParticleType.t)
                      (cms_energy : F64.t).

Inductive Exception :=
| runtime_error (what : string)
| InvalidResonanceFormation (cms_energy min_a min_b : F64.t)
                            (pdg_a pdg_b : PdgCode.t)
| assertion_failure.

Inductive Outcome (A : Type) :=
| Returned (a : A)
| Thrown (e : Exception).
Arguments Returned {A} a.
Arguments Thrown {A} e.

Record Run (A : Type) := mkRun {
  events : list Event;
  final : Action.t;
  outcome : Outcome A
}.
Arguments mkRun {A} _ _ _.
Arguments events {A} _.
Arguments final {A} _.
Arguments outcome {A} _.

(* the test that makes the selection loop [continue] *)
Definition skipped (proc : ProcessBranch.t) : bool :=
  Nat.ltb (length (ProcessBranch.particle_types proc)) 1
  || match ProcessBranch.particle_types proc with
     | [] => false
     | ty0 :: _ => PdgCode.eqb (ParticleType.pdgcode ty0) PdgCode.invalid
     end.

(* the loop of choose_channel: [interaction_probability] is a float, the
   quotient is a float quotient, and the comparison converts the float to
   the double of the draw *)
Fixpoint choose_channel_loop (total_weight : F32.t)
    (random_interaction : F64.t) (procs : ProcessBranchList)
    (interaction_probability : F32.t) : F32.t * option ProcessBranch.t :=
  match procs with
  | [] => (interaction_probability, None)
  | proc :: rest =>
      if skipped proc
      then choose_channel_loop total_weight random_interaction rest
             interaction_probability
      else
        let interaction_probability :=
          F32.add interaction_probability
            (F32.div (ProcessBranch.weight proc) total_weight) in
        if F64.leb random_interaction (F64.of_float interaction_probability)
        then (interaction_probability, Some proc)
        else choose_channel_loop total_weight random_interaction rest
               interaction_probability
  end.

(* ParticleList Action::choose_channel(); [random_interaction] is the
   value Random::canonical() hands out *)
Definition choose_channel (random_interaction : F64.t) (this : Action.t)
  : Run ParticleList :=
  match choose_channel_loop (Action.total_weight_ this) random_interaction
          (Action.subprocesses_ this) F32.zero with
  | (_, Some proc) => mkRun [] this (Returned (ProcessBranch.particle_list proc))
  | (interaction_probability, None) =>
      mkRun
        [Log Fatal [LSourceLocation; LStr "Problem in choose_channel: ";
                    LSize (N.of_nat (length (Action.subprocesses_ this)));
                    LStr " "; LNum interaction_probability; LStr " ";
                    LNum (Action.total_weight_ this); LStr nl; LAction this]]
        this (Thrown (runtime_error "problem in choose_channel"))
  end.

Section Collaborators.
(* Action::sqrt_s(), declared in action.h *)
Variable sqrt_s : Action.t -> F64.t.
(* sample_resonance_mass of resonances.h *)
Variable sample_resonance_mass :
  ParticleType.t -> ParticleType.t -> F64.t -> F64.t.
(* the direction Angles::threevec() yields *)
Variable phitheta : ThreeVector.t.

(* lines 143-149: the sampler call, if any, and the two masses *)
Definition sample_masses (t_a t_b : ParticleType.t) (cms_energy : F64.t)
  : list Event * (F64.t * F64.t) :=
  if negb (ParticleType.is_stable t_a) then
    ([SampleResonanceMass t_a t_b cms_energy],
     (sample_resonance_mass t_a t_b cms_energy, ParticleType.mass t_b))
  else if negb (ParticleType.is_stable t_b) then
    ([SampleResonanceMass t_b t_a cms_energy],
     (ParticleType.mass t_a, sample_resonance_mass t_b t_a cms_energy))
  else ([], (ParticleType.mass t_a, ParticleType.mass t_b)).

(* void Action::sample_cms_momenta() *)
Definition sample_cms_momenta (this : Action.t) : Run unit :=
  match Action.outgoing_particles_ this with
  | [p_a; p_b] =>
      let t_a := ParticleData.type p_a in
      let t_b := ParticleData.type p_b in
      let cms_energy := sqrt_s this in
      if F64.ltb cms_energy
           (F64.add (ParticleType.minimum_mass t_a)
              (ParticleType.minimum_mass t_b))
      then
        mkRun [] this
          (Thrown (InvalidResonanceFormation cms_energy
                     (ParticleType.minimum_mass t_a)
                     (ParticleType.minimum_mass t_b)
                     (ParticleData.pdgcode p_a) (ParticleData.pdgcode p_b)))
      else
        let sampled := sample_masses t_a t_b cms_energy in
        let mass_a := fst (snd sampled) in
        let mass_b := snd (snd sampled) in
        let energy_a :=
          F64.div
            (F64.sub
               (F64.add (F64.mul cms_energy cms_energy)
                  (F64.mul mass_a mass_a))
               (F64.mul mass_b mass_b))
            (F64.mul F64.two cms_energy) in
        let momentum_radial :=
          F64.sqrt
            (F64.sub (F64.mul energy_a energy_a) (F64.mul mass_a mass_a)) in
        let p_a' :=
          ParticleData.set_4momentum p_a
            (FourVector.of_energy_three energy_a
               (ThreeVector.scale phitheta momentum_radial)) in
        let p_b' :=
          ParticleData.set_4momentum p_b
            (FourVector.of_energy_three (F64.sub cms_energy energy_a)
               (ThreeVector.scale (ThreeVector.opp phitheta)
                  momentum_radial)) in
        mkRun
          (fst sampled
           ++ (if negb (F64.ltb F64.zero momentum_radial)
               then [Log Warn [LStr "radial momenta "; LNum momentum_radial]]
               else [])
           ++ (if negb (F64.ltb mass_a energy_a)
               then [Log Info [LStr "Particle ";
                               LPdg (ParticleType.pdgcode t_a);
                               LStr " radial momenta "; LNum momentum_radial;
                               LAngles phitheta];
                     Log Info [LStr "Etot: "; LNum cms_energy;
                               LStr " m_a: "; LNum mass_a; LStr " m_b: ";
                               LNum mass_b; LStr " E_a: "; LNum energy_a]]
               else [])
           ++ [Log Debug [LStr "p_a: "; LParticle p_a';
                          LStr (nl ++ "p_b: "); LParticle p_b']])
          (Action.set_outgoing this [p_a'; p_b']) (Returned tt)
  | _ => mkRun [] this (Thrown assertion_failure)
  end.
End Collaborators.

(** *** Vocabulary *)

Inductive FillCall :=
| CallAddProcess (p : ProcessBranch.t)
| CallAddProcesses (pv : ProcessBranchList).

Definition fill (a : Action.t) (c : FillCall) : Action.t :=
  match c with
  | CallAddProcess p => Action.add_process p a
  | CallAddProcesses pv => Action.add_processes pv a
  end.

Definition built (in_part : ParticleList) (time_of_execution : F32.t)
    (calls : list FillCall) : Action.t :=
  fold_left fill calls (Action.new in_part time_of_execution).



(** The arithmetic sum of the numbers the weights stand for. *)
Definition arithmetic_sum (l : ProcessBranchList) : Q :=
  fold_right (fun p s => value (ProcessBranch.weight p) + s) 0 l.

Definition invalid_branch (b : ProcessBranch.t) : Prop :=
  match ProcessBranch.particle_types b with
  | [] => True
  | ty0 :: _ => ParticleType.pdgcode ty0 = PdgCode.invalid
  end.

Definition selectable_branches (l : ProcessBranchList) : ProcessBranchList :=
  List.filter (fun b => negb (skipped b)) l.

Definition skipped_branches (l : ProcessBranchList) : ProcessBranchList :=
  List.filter skipped l.

(** The cumulative probability the loop holds after the first [i] branches
    of [l], none of them skipped: the float quotients w/W added one by one
    to 0, every quotient and every addition rounded to float. *)
Definition cumulative (W : F32.t) (l : ProcessBranchList) (i : nat) : F32.t :=
  fold_left (fun acc b => F32.add acc (F32.div (ProcessBranch.weight b) W))
    (firstn i l) F32.zero.

(** The draw is reached by a cumulative probability: the comparison
    r <= cumulative of the loop holds. *)
Definition reached (r : F64.t) (p : F32.t) : Prop :=
  F64.leb r (F64.of_float p) = true.

Definition selection_failure (a : Action.t) (interaction_probability : F32.t)
  : Run ParticleList :=
  mkRun
    [Log Fatal [LSourceLocation; LStr "Problem in choose_channel: ";
                LSize (N.of_nat (length (Action.subprocesses_ a)));
                LStr " "; LNum interaction_probability; LStr " ";
                LNum (Action.total_weight_ a); LStr nl; LAction a]]
    a (Thrown (runtime_error "problem in choose_channel")).

(** *** Concrete inputs *)

Module Examples.
Definition pion : ParticleType.t :=
  ParticleType.mk 211%Z (F64.div (F64.of_Z 1) (F64.of_Z 10))
    (F64.div (F64.of_Z 1) (F64.of_Z 10)) true.
Definition nothing : ParticleType.t :=
  ParticleType.mk PdgCode.invalid F64.zero F64.zero true.

(* selectable branches of weight 1, 2 and 2^24, a placeholder of weight 1
   and one of weight 2 *)
Definition unit_branch : ProcessBranch.t :=
  ProcessBranch.mk [pion; pion] (F32.of_Z 1).
Definition placeholder : ProcessBranch.t :=
  ProcessBranch.mk [nothing] (F32.of_Z 1).
Definition heavy_placeholder : ProcessBranch.t :=
  ProcessBranch.mk [nothing] (F32.of_Z 2).

Definition single : Action.t :=
  built [] F32.zero [CallAddProcess unit_branch].
Definition one_and_placeholder : Action.t :=
  built [] F32.zero [CallAddProcesses [unit_branch; placeholder]].
Definition one_and_heavy_placeholder : Action.t :=
  built [] F32.zero [CallAddProcesses [unit_branch; heavy_placeholder]].

(* the double next above 1/3 that the float quotient 1/3 converts to *)
Definition third_as_float : F64.t :=
  F64.of_float (F32.div (F32.of_Z 1) (F32.of_Z 3)).
Definition three_quarters : F64.t := F64.div (F64.of_Z 3) (F64.of_Z 4).

Definition sampler (_ _ : ParticleType.t) (_ : F64.t) : F64.t := F64.of_Z 1.
Definition along_z : ThreeVector.t :=
  ThreeVector.mk F64.zero F64.zero (F64.of_Z 1).
End Examples.

End Ieee.

(** ** Proof automation for closed rational facts *)

Ltac refute := let H := fresh in intro H; vm_compute in H; congruence.
Ltac evaluate := vm_compute; congruence.

(** ** Validity against the pool *)

Lemma is_valid_loop_true (particles : Particles.t) (parts : ParticleList) :
  Action.is_valid_loop particles parts = true
  <-> Forall (live_and_unmodified particles) parts.
Proof.
  induction parts as [|part rest IH]; simpl.
  - split; [constructor | reflexivity].
  - unfold Particles.has_data, Particles.data.
    destruct (Particles.data_ particles !! ParticleData.id part)
      as [live|] eqn:E; simpl.
    + destruct (Z.eqb_spec (ParticleData.id_process live)
                  (ParticleData.id_process part)) as [Heq|Hne]; simpl.
      * rewrite IH. split.
        -- intros H. constructor; [exists live; now split | exact H].
        -- intros H. now inversion H.
      * split; [discriminate|]. intros H. inversion H as [|? ? Hp _]; subst.
        destruct Hp as (live' & Hl & Hid). rewrite E in Hl.
        injection Hl as <-. contradiction.
    + split; [discriminate|]. intros H. inversion H as [|? ? Hp _]; subst.
      destruct Hp as (live' & Hl & _). rewrite E in Hl. discriminate.
Qed.

Lemma is_valid_loop_false (particles : Particles.t) (parts : ParticleList) :
  Action.is_valid_loop particles parts = false
  <-> Exists (gone_or_modified particles) parts.
Proof.
  induction parts as [|part rest IH]; simpl.
  - split; [discriminate | intros H; inversion H].
  - unfold Particles.has_data, Particles.data.
    destruct (Particles.data_ particles !! ParticleData.id part)
      as [live|] eqn:E; simpl.
    + destruct (Z.eqb_spec (ParticleData.id_process live)
                  (ParticleData.id_process part)) as [Heq|Hne]; simpl.
      * rewrite IH. split.
        -- intros H. now apply Exists_cons_tl.
        -- intros H. inversion H as [? ? Hp|? ? Hr]; subst; [|exact Hr].
           destruct Hp as [Hn|(live' & Hl & Hid)].
           ++ rewrite E in Hn. discriminate.
           ++ rewrite E in Hl. injection Hl as <-. contradiction.
      * split; [|reflexivity]. intros _. apply Exists_cons_hd.
        right. exists live. now split.
    + split; [|reflexivity]. intros _. apply Exists_cons_hd. now left.
Qed.

(** C7: is_valid(pool) returns false exactly when some incoming snapshot's
    id is absent from the pool or the pool's record for that id carries
    another id_process, and returns true exactly when every incoming
    snapshot is present with the id_process it recorded; the call emits
    nothing, never throws and leaves the Action as it was (the pool is an
    argument that is only read). *)
Theorem is_valid_checks_presence_and_id_process
    (particles : Particles.t) (a : Action.t) :
  exists b : bool,
    ActionMethods.is_valid particles a = mkRun [] a (Returned b)
    /\ (b = false
        <-> Exists (gone_or_modified particles) (Action.incoming_particles_ a))
    /\ (b = true
        <-> Forall (live_and_unmodified particles)
              (Action.incoming_particles_ a)).
Proof.
  exists (Action.is_valid_loop particles (Action.incoming_particles_ a)).
  split; [reflexivity|]. split.
  - apply is_valid_loop_false.
  - apply is_valid_loop_true.
Qed.

(** ** Channel selection *)

Lemma skipped_iff_invalid (b : ProcessBranch.t) :
  ActionMethods.skipped b = true <-> invalid_branch b.
Proof.
  unfold ActionMethods.skipped, invalid_branch, PdgCode.eqb.
  destruct (ProcessBranch.particle_types b) as [|ty0 rest]; simpl.
  - split; auto.
  - apply Z.eqb_eq.
Qed.

Lemma choose_channel_run (r : Q) (a : Action.t) :
  ActionMethods.choose_channel r a
  = match ActionMethods.choose_channel_loop (Action.total_weight_ a) r
            (Action.subprocesses_ a) 0 with
    | (_, Some proc) => mkRun [] a (Returned (ProcessBranch.particle_list proc))
    | (p, None) => selection_failure a p
    end.
Proof.
  unfold ActionMethods.choose_channel, bind, get. simpl.
  destruct (ActionMethods.choose_channel_loop _ _ _ _) as [p [proc|]];
    reflexivity.
Qed.

Lemma loop_selects_stored_selectable (W r : Q) (l : ProcessBranchList) :
  forall (acc p : Q) (proc : ProcessBranch.t),
    ActionMethods.choose_channel_loop W r l acc = (p, Some proc) ->
    In proc l /\ ActionMethods.skipped proc = false.
Proof.
  induction l as [|b rest IH]; intros acc p proc; simpl.
  - discriminate.
  - destruct (ActionMethods.skipped b) eqn:Hs.
    + intros H. apply IH in H. tauto.
    + destruct (Qle_bool r (acc + ProcessBranch.weight b / W)).
      * intros H. injection H as _ <-. auto.
      * intros H. apply IH in H. tauto.
Qed.

Lemma particle_list_types (b : ProcessBranch.t) :
  map ParticleData.type (ProcessBranch.particle_list b)
  = ProcessBranch.particle_types b.
Proof.
  unfold ProcessBranch.particle_list.
  induction (ProcessBranch.particle_types b) as [|ty tys IH]; simpl.
  - reflexivity.
  - now rewrite IH.
Qed.

(** C3: whatever the draw, a list returned by choose_channel is the
    final-state list of a stored branch whose species list is non-empty and
    starts with a valid species, and it is never the final-state list of a
    stored branch with an empty species list or an invalid leading species,
    whatever weight that branch has. *)
Theorem choose_channel_never_returns_invalid_branch
    (r : Q) (a : Action.t) (l : ParticleList) :
  outcome (ActionMethods.choose_channel r a) = Returned l ->
  (exists proc,
      In proc (Action.subprocesses_ a)
      /\ ~ invalid_branch proc
      /\ l = ProcessBranch.particle_list proc)
  /\ (forall b,
        In b (Action.subprocesses_ a) -> invalid_branch b ->
        ProcessBranch.particle_list b <> l).
Proof.
  rewrite choose_channel_run.
  destruct (ActionMethods.choose_channel_loop _ _ _ _) as [p [proc|]] eqn:E;
    simpl; [|discriminate].
  intros H. injection H as <-.
  apply loop_selects_stored_selectable in E. destruct E as [Hin Hsel].
  assert (Hvalid : ~ invalid_branch proc).
  { intros Hinv. apply skipped_iff_invalid in Hinv. congruence. }
  split.
  - exists proc. auto.
  - intros b _ Hb Heq. apply Hvalid.
    apply (f_equal (map ParticleData.type)) in Heq.
    rewrite !particle_list_types in Heq.
    unfold invalid_branch in *. now rewrite <- Heq.
Qed.

Lemma loop_none_iff (W r : Q) (l : ProcessBranchList) :
  forall acc,
    Forall (fun p => ~ r <= p) (running_probabilities W l acc)
    <-> snd (ActionMethods.choose_channel_loop W r l acc) = None.
Proof.
  induction l as [|b rest IH]; intros acc; simpl.
  - split; [reflexivity | constructor].
  - destruct (ActionMethods.skipped b); [apply IH|].
    destruct (Qle_bool r (acc + ProcessBranch.weight b / W)) eqn:E; simpl.
    + apply Qle_bool_iff in E. split; [|discriminate].
      intros H. inversion H; subst. contradiction.
    + rewrite <- IH. split.
      * intros H. now inversion H.
      * intros H. constructor; [|exact H].
        intros Hle. apply Qle_bool_iff in Hle. congruence.
Qed.


(** ** Witnesses for the channel selection *)

(* weights 1 and 3: the first branch owns the draws up to 1/4, bound
   included, the second the draws above *)
Example draw_at_the_bound_selects_the_first :
  outcome (ActionMethods.choose_channel (1 # 4) Examples.two_channels)
  = Returned (ProcessBranch.particle_list Examples.elastic).
Proof. reflexivity. Qed.

Example draw_above_the_bound_selects_the_second :
  outcome (ActionMethods.choose_channel (3 # 10) Examples.two_channels)
  = Returned (ProcessBranch.particle_list Examples.formation).
Proof. reflexivity. Qed.

Lemma choose_channel_never_returns_invalid_branch_witness :
  (exists proc,
      In proc (Action.subprocesses_ Examples.with_placeholder)
      /\ ~ invalid_branch proc
      /\ ProcessBranch.particle_list Examples.elastic
         = ProcessBranch.particle_list proc)
  /\ (forall b,
        In b (Action.subprocesses_ Examples.with_placeholder) ->
        invalid_branch b ->
        ProcessBranch.particle_list b
        <> ProcessBranch.particle_list Examples.elastic).
Proof.
  apply (choose_channel_never_returns_invalid_branch (1 # 4)
           Examples.with_placeholder).
  reflexivity.
Defined.


(** ** Two-body kinematics *)

Lemma Qlt_bool_iff (a b : Q) : Qlt_bool a b = true <-> a < b.
Proof.
  unfold Qlt_bool. rewrite negb_true_iff. split.
  - intros H. apply Qnot_le_lt. intros Hle.
    apply Qle_bool_iff in Hle. congruence.
  - intros H. destruct (Qle_bool b a) eqn:E; [|reflexivity].
    apply Qle_bool_iff in E. apply Qlt_not_le in H. contradiction.
Qed.

Lemma Qlt_bool_false_iff (a b : Q) : Qlt_bool a b = false <-> b <= a.
Proof.
  unfold Qlt_bool. rewrite negb_false_iff. apply Qle_bool_iff.
Qed.

Section Kinematics.
Variable sqrt_s : Action.t -> Q.
Variable sample_resonance_mass : ParticleType.t -> ParticleType.t -> Q -> Q.
Variable sqrt : Q -> Q.
Variable phitheta : ThreeVector.t.

Local Abbreviation run a :=
(ActionMethods.sample_cms_momenta sqrt_s sample_resonance_mass sqrt
   phitheta a).

Lemma sample_cms_momenta_wrong_size (a : Action.t) :
  (forall p_a p_b, Action.outgoing_particles_ a <> [p_a; p_b]) ->
  run a = mkRun [] a (Thrown assertion_failure).
Proof.
  intros H. unfold ActionMethods.sample_cms_momenta, bind, get. simpl.
  destruct (Action.outgoing_particles_ a) as [|p_a [|p_b [|p_c rest]]];
    try reflexivity.
  exfalso. now apply (H p_a p_b).
Qed.

Lemma sample_cms_momenta_below_threshold
    (a : Action.t) (p_a p_b : ParticleData.t) :
  Action.outgoing_particles_ a = [p_a; p_b] ->
  sqrt_s a < ParticleType.minimum_mass (ParticleData.type p_a)
             + ParticleType.minimum_mass (ParticleData.type p_b) ->
  run a
  = mkRun [] a
      (Thrown (InvalidResonanceFormation (sqrt_s a)
                 (ParticleType.minimum_mass (ParticleData.type p_a))
                 (ParticleType.minimum_mass (ParticleData.type p_b))
                 (ParticleData.pdgcode p_a) (ParticleData.pdgcode p_b))).
Proof.
  intros Hout Hlt. apply Qlt_bool_iff in Hlt.
  unfold ActionMethods.sample_cms_momenta, bind, get. simpl.
  rewrite Hout, Hlt. reflexivity.
Qed.

Lemma sample_cms_momenta_above_threshold
    (a : Action.t) (p_a p_b : ParticleData.t) :
  Action.outgoing_particles_ a = [p_a; p_b] ->
  ParticleType.minimum_mass (ParticleData.type p_a)
  + ParticleType.minimum_mass (ParticleData.type p_b) <= sqrt_s a ->
  outcome (run a) = Returned tt
  /\ final (run a)
     = Action.set_outgoing a
         (back_to_back sqrt phitheta (sqrt_s a)
            (fst (masses_used sample_resonance_mass (ParticleData.type p_a)
                    (ParticleData.type p_b) (sqrt_s a)))
            (snd (masses_used sample_resonance_mass (ParticleData.type p_a)
                    (ParticleData.type p_b) (sqrt_s a)))
            p_a p_b)
  /\ sampler_calls (events (run a))
     = calls_expected (ParticleData.type p_a) (ParticleData.type p_b)
         (sqrt_s a).
Proof.
  intros Hout Hle. apply Qlt_bool_false_iff in Hle.
  unfold ActionMethods.sample_cms_momenta, bind, get. simpl.
  rewrite Hout, Hle.
  unfold ActionMethods.sample_masses, masses_used, calls_expected,
    ActionMethods.call_sample_resonance_mass, back_to_back, momentum_radial,
    energy_a, when, log, put, ret, bind.
  destruct (ParticleType.is_stable (ParticleData.type p_a));
    destruct (ParticleType.is_stable (ParticleData.type p_b)); cbn;
    repeat match goal with
           | |- context [Qlt_bool ?x ?y] => destruct (Qlt_bool x y); cbn
           end;
    repeat split; reflexivity.
Qed.
End Kinematics.


Section KinematicsClaims.
Variable sqrt_s : Action.t -> Q.
Variable sample_resonance_mass : ParticleType.t -> ParticleType.t -> Q -> Q.
Variable sqrt : Q -> Q.
Variable phitheta : ThreeVector.t.

Local Abbreviation run a :=
  (ActionMethods.sample_cms_momenta sqrt_s sample_resonance_mass sqrt
     phitheta a).


(** C8: sample_cms_momenta calls the resonance mass sampler at most once.
    On a two-particle final state with enough energy: if species A is
    unstable, its mass is the one sampled and B enters with its pole mass,
    also when B is unstable; if A is stable and B is unstable, B's mass is
    the one sampled and A enters with its pole mass; if both are stable the
    sampler is not called and both enter with their pole masses. *)
Theorem sample_cms_momenta_samples_at_most_one_mass
    (a : Action.t) (p_a p_b : ParticleData.t) :
  Action.outgoing_particles_ a = [p_a; p_b] ->
  ParticleType.minimum_mass (ParticleData.type p_a)
  + ParticleType.minimum_mass (ParticleData.type p_b) <= sqrt_s a ->
  (length (sampler_calls (events (run a))) <= 1)%nat
  /\ (ParticleType.is_stable (ParticleData.type p_a) = false ->
      sampler_calls (events (run a))
      = [(ParticleData.type p_a, ParticleData.type p_b, sqrt_s a)]
      /\ Action.outgoing_particles_ (final (run a))
         = back_to_back sqrt phitheta (sqrt_s a)
             (sample_resonance_mass (ParticleData.type p_a)
                (ParticleData.type p_b) (sqrt_s a))
             (ParticleType.mass (ParticleData.type p_b)) p_a p_b)
  /\ (ParticleType.is_stable (ParticleData.type p_a) = true ->
      ParticleType.is_stable (ParticleData.type p_b) = false ->
      sampler_calls (events (run a))
      = [(ParticleData.type p_b, ParticleData.type p_a, sqrt_s a)]
      /\ Action.outgoing_particles_ (final (run a))
         = back_to_back sqrt phitheta (sqrt_s a)
             (ParticleType.mass (ParticleData.type p_a))
             (sample_resonance_mass (ParticleData.type p_b)
                (ParticleData.type p_a) (sqrt_s a)) p_a p_b)
  /\ (ParticleType.is_stable (ParticleData.type p_a) = true ->
      ParticleType.is_stable (ParticleData.type p_b) = true ->
      sampler_calls (events (run a)) = []
      /\ Action.outgoing_particles_ (final (run a))
         = back_to_back sqrt phitheta (sqrt_s a)
             (ParticleType.mass (ParticleData.type p_a))
             (ParticleType.mass (ParticleData.type p_b)) p_a p_b).
Proof.
  intros Hout Hle.
  destruct (sample_cms_momenta_above_threshold sqrt_s sample_resonance_mass
              sqrt phitheta a p_a p_b Hout Hle) as (_ & Hfin & Hcalls).
  rewrite Hfin, Hcalls. unfold calls_expected, masses_used.
  destruct (ParticleType.is_stable (ParticleData.type p_a));
    destruct (ParticleType.is_stable (ParticleData.type p_b)); simpl;
    repeat split; intros; try discriminate; try reflexivity; lia.
Qed.

End KinematicsClaims.


Lemma sample_cms_momenta_samples_at_most_one_mass_witness :
  sampler_calls
    (events (ActionMethods.sample_cms_momenta Examples.sqrt_s_two
               Examples.sampler Examples.sqrt Examples.along_z
               (Examples.resolved Examples.wide Examples.wide)))
  = [(Examples.wide, Examples.wide, 2)]
  /\ Action.outgoing_particles_
       (final (ActionMethods.sample_cms_momenta Examples.sqrt_s_two
                 Examples.sampler Examples.sqrt Examples.along_z
                 (Examples.resolved Examples.wide Examples.wide)))
     = back_to_back Examples.sqrt Examples.along_z 2 (55 # 100) (6 # 10)
         (ParticleData.of_type Examples.wide)
         (ParticleData.of_type Examples.wide).
Proof.
  apply (proj1 (proj2
           (sample_cms_momenta_samples_at_most_one_mass Examples.sqrt_s_two
              Examples.sampler Examples.sqrt Examples.along_z
              (Examples.resolved Examples.wide Examples.wide)
              (ParticleData.of_type Examples.wide)
              (ParticleData.of_type Examples.wide)
              eq_refl ltac:(evaluate)))).
  reflexivity.
Defined.

(** ** Conservation check *)

(** C9, at its failing input: the energy warning of check_conservation
    streams the process id, the warnings of the three momentum components
    do not.  With one unit of px missing from the final state, process id
    7 and tolerance 1e-6, the px difference exceeds the tolerance, the
    single warning emitted is the px one, and no diagnostic emitted names
    the process id. *)
Lemma px_warning_omits_the_process_id :
  Examples.tolerance
  < Qabs (FourVector.x1 (ActionMethods.momentum_difference Examples.px_leak))
  /\ events (ActionMethods.check_conservation Examples.tolerance 7
               Examples.px_leak)
     = [Log Warn
          [LStr "px conservation violation ";
           LNum (FourVector.x1
                   (ActionMethods.momentum_difference Examples.px_leak))]]
  /\ ~ Exists (names_process 7)
         (events (ActionMethods.check_conservation Examples.tolerance 7
                    Examples.px_leak)).
Proof.
  split; [reflexivity|]. split; [reflexivity|].
  intros H. vm_compute in H. inversion H as [? ? Hn|? ? Ht]; subst.
  - destruct Hn as [Hn|[Hn|[]]]; discriminate Hn.
  - inversion Ht.
Qed.

(* the sibling path: the energy warning does name the process id *)
Example energy_warning_names_the_process_id :
  events (ActionMethods.check_conservation Examples.tolerance 7
            MoreExamples.energy_leak)
  = [Log Warn
       [LStr "Process "; LSize 7;
        LStr (nl ++ "E conservation violation ");
        LNum (FourVector.x0
                (ActionMethods.momentum_difference
                   MoreExamples.energy_leak))]]
  /\ Forall (names_process 7)
       (events (ActionMethods.check_conservation Examples.tolerance 7
                  MoreExamples.energy_leak)).
Proof.
  split; [reflexivity|].
  constructor; [|constructor]. simpl. auto.
Qed.

(** * Further properties of action.cc *)

(** ** Filling the branch collection *)

Lemma add_process_fold_explicit (pv : ProcessBranchList) (a : Action.t) :
  fold_left (fun a p => Action.add_process p a) pv a
  = Action.mk (Action.incoming_particles_ a) (Action.outgoing_particles_ a)
      (Action.subprocesses_ a ++ pv) (Action.time_of_execution_ a)
      (fold_left (fun w p => w + ProcessBranch.weight p) pv
         (Action.total_weight_ a)).
Proof.
  revert a. induction pv as [|p pv IH]; intros a; simpl.
  - rewrite app_nil_r. now destruct a.
  - rewrite IH. simpl. now rewrite <- app_assoc.
Qed.

Lemma add_weights_explicit (procs : ProcessBranchList) (a : Action.t) :
  Action.add_weights procs a
  = Action.mk (Action.incoming_particles_ a) (Action.outgoing_particles_ a)
      (Action.subprocesses_ a) (Action.time_of_execution_ a)
      (fold_left (fun w p => w + ProcessBranch.weight p) procs
         (Action.total_weight_ a)).
Proof.
  revert a. induction procs as [|p procs IH]; intros a; simpl.
  - now destruct a.
  - now rewrite IH.
Qed.

Lemma append_each_is_add_process_fold (pv : ProcessBranchList) (a : Action.t) :
  Action.append_each pv a = fold_left (fun a p => Action.add_process p a) pv a.
Proof.
  revert a. induction pv as [|p pv IH]; intros a; simpl.
  - reflexivity.
  - now rewrite IH.
Qed.

Lemma add_processes_fold (pv : ProcessBranchList) (a : Action.t) :
  Action.add_processes pv a
  = fold_left (fun a p => Action.add_process p a) pv a.
Proof.
  unfold Action.add_processes.
  destruct (Action.subprocesses_ a) as [|q qs] eqn:E.
  - rewrite add_weights_explicit, add_process_fold_explicit, E. reflexivity.
  - apply append_each_is_add_process_fold.
Qed.

(** X1: add_processes(pv) leaves exactly the Action that calling
    add_process on the elements of pv, one after the other, leaves: the same
    branches in the same order and the same cached total obtained by the
    same additions in the same order, on the adopt path as on the append
    path.  The equality is syntactic, so it does not rest on any law of
    addition. *)
Theorem add_processes_is_repeated_add_process
    (pv : ProcessBranchList) (a : Action.t) :
  Action.add_processes pv a
  = fold_left (fun a p => Action.add_process p a) pv a.
Proof.
  unfold Action.add_processes.
  destruct (Action.subprocesses_ a) as [|q qs] eqn:E.
  - rewrite add_weights_explicit, add_process_fold_explicit, E. reflexivity.
  - apply append_each_is_add_process_fold.
Qed.

Lemma fill_keeps_the_rest (a : Action.t) (c : FillCall) :
  Action.incoming_particles_ (fill a c) = Action.incoming_particles_ a
  /\ Action.outgoing_particles_ (fill a c) = Action.outgoing_particles_ a
  /\ Action.time_of_execution_ (fill a c) = Action.time_of_execution_ a.
Proof.
  destruct c as [p|pv]; simpl; [auto|].
  rewrite add_processes_fold, add_process_fold_explicit.
  auto.
Qed.

Lemma copy_loop (l acc : ParticleList) :
  fold_left (fun l part => l ++ [part]) l acc = acc ++ l.
Proof.
  revert acc. induction l as [|p l IH]; intros acc; simpl.
  - now rewrite app_nil_r.
  - rewrite IH. now rewrite <- app_assoc.
Qed.

(** X2: however an Action is filled after its construction,
    incoming_particles() returns the particle list the constructor was
    given, in the same order, emits nothing and leaves the Action as it
    was; the outgoing list is still empty and the time of execution is the
    one given. *)
Theorem incoming_particles_returns_constructor_list
    (in_part : ParticleList) (time_of_execution : Q) (calls : list FillCall) :
  ActionQueries.incoming_particles (built in_part time_of_execution calls)
  = mkRun [] (built in_part time_of_execution calls) (Returned in_part)
  /\ Action.outgoing_particles_ (built in_part time_of_execution calls) = []
  /\ Action.time_of_execution_ (built in_part time_of_execution calls)
     = time_of_execution.
Proof.
  assert (H : forall a,
    Action.incoming_particles_ (fold_left fill calls a)
    = Action.incoming_particles_ a
    /\ Action.outgoing_particles_ (fold_left fill calls a)
       = Action.outgoing_particles_ a
    /\ Action.time_of_execution_ (fold_left fill calls a)
       = Action.time_of_execution_ a).
  { induction calls as [|c calls IH]; intros a; simpl; [auto|].
    destruct (IH (fill a c)) as (H1 & H2 & H3).
    destruct (fill_keeps_the_rest a c) as (K1 & K2 & K3).
    rewrite H1, H2, H3. auto. }
  destruct (H (Action.new in_part time_of_execution)) as (H1 & H2 & H3).
  unfold built. split; [|split; [exact H2 | exact H3]].
  unfold ActionQueries.incoming_particles, bind, get, ret. simpl.
  rewrite copy_loop, H1. reflexivity.
Qed.

(** ** More on the channel selection *)

(** X6: choose_channel never modifies the Action and never calls the mass
    sampler, whether it returns or throws; when it returns a list it has
    emitted nothing. *)
Theorem choose_channel_leaves_the_action_alone (r : Q) (a : Action.t) :
  final (ActionMethods.choose_channel r a) = a
  /\ sampler_calls (events (ActionMethods.choose_channel r a)) = []
  /\ (forall l,
        outcome (ActionMethods.choose_channel r a) = Returned l ->
        events (ActionMethods.choose_channel r a) = []).
Proof.
  rewrite choose_channel_run.
  destruct (ActionMethods.choose_channel_loop _ _ _ _) as [p [proc|]]; simpl.
  - auto.
  - repeat split; auto. discriminate.
Qed.

Lemma loop_over_skipped (W r : Q) (l : ProcessBranchList) (acc : Q) :
  Forall (fun b => ActionMethods.skipped b = true) l ->
  ActionMethods.choose_channel_loop W r l acc = (acc, None).
Proof.
  induction 1 as [|b rest Hb _ IH]; simpl.
  - reflexivity.
  - now rewrite Hb.
Qed.

(** X7: when no stored branch is selectable, in particular when no branch
    is stored at all, choose_channel throws for every draw, and the
    cumulative value in its fatal diagnostic is the initial 0: no weight is
    divided by the total on the way. *)
Theorem choose_channel_without_selectable_branch (r : Q) (a : Action.t) :
  Forall invalid_branch (Action.subprocesses_ a) ->
  ActionMethods.choose_channel r a = selection_failure a 0.
Proof.
  intros H. rewrite choose_channel_run, loop_over_skipped; [reflexivity|].
  eapply Forall_impl; [exact H|]. intros b Hb. now apply skipped_iff_invalid.
Qed.

Lemma loop_ignores_skipped (W r : Q) (l : ProcessBranchList) :
  forall acc,
    ActionMethods.choose_channel_loop W r (selectable_branches l) acc
    = ActionMethods.choose_channel_loop W r l acc.
Proof.
  unfold selectable_branches.
  induction l as [|b rest IH]; intros acc; simpl.
  - reflexivity.
  - destruct (ActionMethods.skipped b) eqn:Hb; simpl.
    + apply IH.
    + rewrite Hb.
      destruct (Qle_bool r (acc + ProcessBranch.weight b / W));
        [reflexivity | apply IH].
Qed.

(** X8: with the cached total left as it is, dropping the branches that
    the selection skips changes nothing in what choose_channel returns or
    throws for any draw: skipped branches act on the selection through the
    total weight only. *)
Theorem skipped_branches_only_count_in_the_total (r : Q) (a : Action.t) :
  outcome
    (ActionMethods.choose_channel r
       (Action.set_subprocesses a
          (selectable_branches (Action.subprocesses_ a))))
  = outcome (ActionMethods.choose_channel r a).
Proof.
  rewrite !choose_channel_run. simpl.
  rewrite loop_ignores_skipped.
  destruct (ActionMethods.choose_channel_loop _ _ _ _) as [p [proc|]];
    reflexivity.
Qed.

(** X9: the draws on which choose_channel gives up are closed upwards: if
    it returns a list for a draw, it returns a list for every smaller draw
    too. *)
Theorem smaller_draws_are_served_too
    (r r' : Q) (a : Action.t) (l' : ParticleList) :
  r <= r' ->
  outcome (ActionMethods.choose_channel r' a) = Returned l' ->
  exists l, outcome (ActionMethods.choose_channel r a) = Returned l.
Proof.
  intros Hle Hret.
  destruct (ActionMethods.choose_channel_loop (Action.total_weight_ a) r
              (Action.subprocesses_ a) 0) as [p [proc|]] eqn:E.
  - exists (ProcessBranch.particle_list proc).
    rewrite choose_channel_run, E. reflexivity.
  - exfalso.
    assert (Hnone : snd (ActionMethods.choose_channel_loop
                           (Action.total_weight_ a) r
                           (Action.subprocesses_ a) 0) = None)
      by now rewrite E.
    apply loop_none_iff in Hnone.
    assert (Hnone' : Forall (fun p => ~ r' <= p)
                       (running_probabilities (Action.total_weight_ a)
                          (Action.subprocesses_ a) 0)).
    { eapply Forall_impl; [exact Hnone|]. intros q Hq Hq'. apply Hq.
      now apply Qle_trans with r'. }
    apply loop_none_iff in Hnone'.
    rewrite choose_channel_run in Hret.
    destruct (ActionMethods.choose_channel_loop (Action.total_weight_ a) r'
                (Action.subprocesses_ a) 0) as [p' [proc'|]];
      simpl in *; discriminate.
Qed.

(** ** Validity while the pool changes *)

Lemma is_valid_run (particles : Particles.t) (a : Action.t) :
  ActionMethods.is_valid particles a
  = mkRun [] a
      (Returned
         (Action.is_valid_loop particles (Action.incoming_particles_ a))).
Proof. reflexivity. Qed.

Lemma is_valid_loop_agree (ps1 ps2 : Particles.t) (parts : ParticleList) :
  (forall part, In part parts ->
     Particles.data_ ps1 !! ParticleData.id part
     = Particles.data_ ps2 !! ParticleData.id part) ->
  Action.is_valid_loop ps1 parts = Action.is_valid_loop ps2 parts.
Proof.
  induction parts as [|part rest IH]; intros H; simpl; [reflexivity|].
  unfold Particles.has_data, Particles.data.
  rewrite (H part (or_introl eq_refl)).
  rewrite IH; [reflexivity|]. intros q Hq. apply H. now right.
Qed.

(** X10: an Action whose incoming snapshots are the records the pool holds
    under their ids is valid against that pool. *)
Theorem snapshots_of_the_pool_are_valid
    (particles : Particles.t) (a : Action.t) :
  Forall (fun part =>
            Particles.data particles (ParticleData.id part) = Some part)
    (Action.incoming_particles_ a) ->
  ActionMethods.is_valid particles a = mkRun [] a (Returned true).
Proof.
  intros H. rewrite is_valid_run. f_equal. f_equal.
  apply is_valid_loop_true.
  eapply Forall_impl; [exact H|]. intros part Hp. exists part. auto.
Qed.

(** X11: once an incoming particle has been removed from the pool, as a
    decay or an inelastic scattering does, the Action is not valid against
    the pool any more, whatever else the pool holds. *)
Theorem removal_of_an_incoming_particle_invalidates
    (particles : Particles.t) (a : Action.t) (part : ParticleData.t) :
  In part (Action.incoming_particles_ a) ->
  ActionMethods.is_valid
    (Particles.mk (delete (ParticleData.id part) (Particles.data_ particles)))
    a
  = mkRun [] a (Returned false).
Proof.
  intros Hin. rewrite is_valid_run. f_equal. f_equal.
  apply is_valid_loop_false. apply Exists_exists. exists part.
  split; [now apply list_elem_of_In|]. left. simpl. apply lookup_delete_eq.
Qed.

(** X12: once the pool's record of an incoming particle carries an
    id_process other than the one the snapshot recorded, as after an
    elastic scattering, the Action is not valid against the pool any
    more. *)
Theorem change_of_id_process_invalidates
    (particles : Particles.t) (a : Action.t) (part live : ParticleData.t) :
  In part (Action.incoming_particles_ a) ->
  ParticleData.id_process live <> ParticleData.id_process part ->
  ActionMethods.is_valid
    (Particles.mk
       (<[ParticleData.id part := live]> (Particles.data_ particles))) a
  = mkRun [] a (Returned false).
Proof.
  intros Hin Hne. rewrite is_valid_run. f_equal. f_equal.
  apply is_valid_loop_false. apply Exists_exists. exists part.
  split; [now apply list_elem_of_In|]. right. exists live. simpl.
  split; [apply lookup_insert_eq | exact Hne].
Qed.

(** X13: the verdict of is_valid depends on the pool only through the
    records under the ids of the incoming particles: entering, replacing or
    removing the record of any other id leaves the verdict as it was. *)
Theorem other_particles_do_not_matter
    (particles : Particles.t) (a : Action.t) (i : Z) (d : ParticleData.t) :
  (forall part, In part (Action.incoming_particles_ a) ->
                ParticleData.id part <> i) ->
  ActionMethods.is_valid
    (Particles.mk (<[i := d]> (Particles.data_ particles))) a
  = ActionMethods.is_valid particles a
  /\ ActionMethods.is_valid
       (Particles.mk (delete i (Particles.data_ particles))) a
     = ActionMethods.is_valid particles a.
Proof.
  intros H. rewrite !is_valid_run. split; f_equal; f_equal;
    apply is_valid_loop_agree; intros part Hp; simpl;
    specialize (H part Hp).
  - now apply lookup_insert_ne.
  - now apply lookup_delete_ne.
Qed.

(** ** More on the two-body kinematics *)

Section KinematicsEdges.
Variable sqrt_s : Action.t -> Q.
Variable sample_resonance_mass : ParticleType.t -> ParticleType.t -> Q -> Q.
Variable sqrt : Q -> Q.
Variable phitheta : ThreeVector.t.

Local Abbreviation run a :=
  (ActionMethods.sample_cms_momenta sqrt_s sample_resonance_mass sqrt
     phitheta a).

Lemma sample_cms_momenta_shape (a : Action.t) :
  final (run a) = a
  \/ exists p_a p_b m_a m_b,
       Action.outgoing_particles_ a = [p_a; p_b]
       /\ final (run a)
          = Action.set_outgoing a
              (back_to_back sqrt phitheta (sqrt_s a) m_a m_b p_a p_b).
Proof.
  destruct (Action.outgoing_particles_ a) as [|p_a [|p_b [|p_c rest]]] eqn:E.
  - left. rewrite sample_cms_momenta_wrong_size; [reflexivity|].
    intros x y. rewrite E. discriminate.
  - left. rewrite sample_cms_momenta_wrong_size; [reflexivity|].
    intros x y. rewrite E. discriminate.
  - destruct (Qlt_le_dec (sqrt_s a)
                (ParticleType.minimum_mass (ParticleData.type p_a)
                 + ParticleType.minimum_mass (ParticleData.type p_b)))
      as [Hlt|Hle].
    + left. now rewrite (sample_cms_momenta_below_threshold sqrt_s
                           sample_resonance_mass sqrt phitheta a p_a p_b E Hlt).
    + right.
      destruct (sample_cms_momenta_above_threshold sqrt_s
                  sample_resonance_mass sqrt phitheta a p_a p_b E Hle)
        as (_ & Hfin & _).
      eexists p_a, p_b, _, _. split; [reflexivity | exact Hfin].
  - left. rewrite sample_cms_momenta_wrong_size; [reflexivity|].
    intros x y. rewrite E. discriminate.
Qed.

(** X18: whatever the Action and whatever the outcome, sample_cms_momenta
    touches nothing but the four-momenta of the outgoing particles: the
    incoming particles, the branches, the cached total weight and the time
    of execution are as before, and the outgoing particles keep their
    number, ids, species, id_process and positions. *)
Theorem sample_cms_momenta_only_sets_momenta (a : Action.t) :
  Action.incoming_particles_ (final (run a)) = Action.incoming_particles_ a
  /\ Action.subprocesses_ (final (run a)) = Action.subprocesses_ a
  /\ Action.total_weight_ (final (run a)) = Action.total_weight_ a
  /\ Action.time_of_execution_ (final (run a)) = Action.time_of_execution_ a
  /\ map ParticleData.id (Action.outgoing_particles_ (final (run a)))
     = map ParticleData.id (Action.outgoing_particles_ a)
  /\ map ParticleData.type (Action.outgoing_particles_ (final (run a)))
     = map ParticleData.type (Action.outgoing_particles_ a)
  /\ map ParticleData.id_process (Action.outgoing_particles_ (final (run a)))
     = map ParticleData.id_process (Action.outgoing_particles_ a)
  /\ map ParticleData.position (Action.outgoing_particles_ (final (run a)))
     = map ParticleData.position (Action.outgoing_particles_ a).
Proof.
  destruct (sample_cms_momenta_shape a)
    as [->|(p_a & p_b & m_a & m_b & Hout & ->)].
  - repeat split; reflexivity.
  - rewrite Hout. repeat split; reflexivity.
Qed.

(** X19: sample_cms_momenta fails its assertion exactly when the outgoing
    list does not hold two particles; it then has emitted nothing and
    changed nothing. *)
Theorem sample_cms_momenta_asserts_two_particles (a : Action.t) :
  (outcome (run a) = Thrown assertion_failure
   <-> length (Action.outgoing_particles_ a) <> 2%nat)
  /\ (length (Action.outgoing_particles_ a) <> 2%nat ->
      run a = mkRun [] a (Thrown assertion_failure)).
Proof.
  destruct (Action.outgoing_particles_ a) as [|p_a [|p_b [|p_c rest]]] eqn:E.
  1,2,4:
    rewrite sample_cms_momenta_wrong_size
      by (intros x y; rewrite E; discriminate);
    simpl; split; [split; [intros _; lia | reflexivity] | reflexivity].
  split.
  - split; [|simpl; lia].
    destruct (Qlt_le_dec (sqrt_s a)
                (ParticleType.minimum_mass (ParticleData.type p_a)
                 + ParticleType.minimum_mass (ParticleData.type p_b)))
      as [Hlt|Hle].
    + rewrite (sample_cms_momenta_below_threshold sqrt_s
                 sample_resonance_mass sqrt phitheta a p_a p_b E Hlt).
      discriminate.
    + destruct (sample_cms_momenta_above_threshold sqrt_s
                  sample_resonance_mass sqrt phitheta a p_a p_b E Hle)
        as (Hret & _ & _).
      rewrite Hret. discriminate.
  - simpl. lia.
Qed.


End KinematicsEdges.

(** * The particles writer *)

Module BinaryOutputParticlesFacts.
Import BinaryOutputParticles.

Lemma contents_fwrite (w : Written) (f : File) :
  contents (fwrite w f) = contents f ++ [w].
Proof. unfold contents, fwrite. simpl. now rewrite app_assoc. Qed.

Lemma contents_fflush (f : File) : contents (fflush f) = contents f.
Proof. unfold contents, fflush. simpl. now rewrite app_nil_r. Qed.

Lemma contents_write_block (particles : Particles.t) (o : t) :
  contents (file_ (write_block particles o))
  = contents (file_ o)
    ++ [FwriteChar "p"%char; WriteSize (particles_size particles);
        WriteParticles particles].
Proof.
  unfold write_block, on_file. simpl. rewrite !contents_fwrite.
  now rewrite <- !app_assoc.
Qed.

Lemma only_final_call (o : t) (c : Call) :
  only_final_ (call o c) = only_final_ o.
Proof.
  destruct c; simpl;
    unfold at_eventstart, at_intermediate_time, at_eventend, write_block,
      on_file;
    destruct (only_final_ o) eqn:E; simpl; rewrite ?E; reflexivity.
Qed.

Lemma only_final_calls (cs : list Call) (o : t) :
  only_final_ (calls cs o) = only_final_ o.
Proof.
  unfold calls. revert o. induction cs as [|c cs IH]; intros o; simpl.
  - reflexivity.
  - now rewrite IH, only_final_call.
Qed.

(* what a call appends to the stream *)
Lemma contents_call (o : t) (c : Call) :
  exists ws,
    contents (file_ (call o c)) = contents (file_ o) ++ ws
    /\ decode ws = Some (blocks_of (only_final_ o) c).
Proof.
  destruct c as [ps n|ps|ps n b];
    unfold call, at_eventstart, at_intermediate_time, at_eventend, blocks_of;
    destruct (only_final_ o) eqn:Hf; cbn [negb].
  - exists []. now rewrite app_nil_r.
  - eexists. split; [apply contents_write_block|].
    simpl. now rewrite Nat.eqb_refl.
  - exists []. now rewrite app_nil_r.
  - eexists. split; [apply contents_write_block|].
    simpl. now rewrite Nat.eqb_refl.
  - eexists. split.
    + unfold on_file at 1 2 3 4. cbn [file_].
      rewrite contents_fflush, !contents_fwrite.
      rewrite contents_write_block, <- !app_assoc. reflexivity.
    + simpl. now rewrite Nat.eqb_refl.
  - eexists. split.
    + unfold on_file. cbn [file_].
      rewrite contents_fflush, !contents_fwrite.
      rewrite <- !app_assoc. reflexivity.
    + reflexivity.
Qed.

Lemma decode_app_bounded (n : nat) :
  forall (l1 l2 : list Written) (b1 : list Block),
    (length l1 <= n)%nat ->
    decode l1 = Some b1 ->
    decode (l1 ++ l2) = option_map (app b1) (decode l2).
Proof.
  induction n as [|n IH]; intros l1 l2 b1 Hlen Hd.
  - destruct l1; [|simpl in Hlen; lia]. simpl in Hd. injection Hd as <-.
    simpl. now destruct (decode l2).
  - destruct l1 as [|w rest].
    { simpl in Hd. injection Hd as <-. simpl. now destruct (decode l2). }
    destruct w as [c| | | |]; try discriminate Hd.
    simpl in Hd |- *.
    destruct (Ascii.eqb c "p") eqn:Hp.
    + destruct rest as [|[|m| | |] [|[| |ps| |] rest']]; try discriminate Hd.
      simpl. destruct (Nat.eqb m (particles_size ps)); [|discriminate Hd].
      destruct (decode rest') as [b'|] eqn:Hr; [|discriminate Hd].
      simpl in Hd. injection Hd as <-.
      rewrite (IH rest' l2 b' ltac:(simpl in Hlen; lia) Hr).
      now destruct (decode l2).
    + destruct (Ascii.eqb c "f") eqn:Hf; [|discriminate Hd].
      destruct rest as [|[| | |x|] [|[| | | |y] rest']]; try discriminate Hd.
      simpl. destruct (decode rest') as [b'|] eqn:Hr; [|discriminate Hd].
      simpl in Hd. injection Hd as <-.
      rewrite (IH rest' l2 b' ltac:(simpl in Hlen; lia) Hr).
      now destruct (decode l2).
Qed.

Lemma decode_app (l1 l2 : list Written) (b1 b2 : list Block) :
  decode l1 = Some b1 -> decode l2 = Some b2 ->
  decode (l1 ++ l2) = Some (b1 ++ b2).
Proof.
  intros H1 H2.
  rewrite (decode_app_bounded (length l1) l1 l2 b1 (Nat.le_refl _) H1), H2.
  reflexivity.
Qed.

(** X21: what the writer appends can be read back, whatever the file
    holds already (the format header, earlier events, flushed or pending).
    After any run of at_eventstart, at_intermediate_time and at_eventend
    calls the file holds what it held before followed by a stretch that
    reads back as the blocks of the calls in order: a 'p' with a count and
    a particle set of exactly that size for every particle block written,
    an 'f' with the event number and the impact parameter for every event
    end. *)
Theorem output_reads_back (cs : list Call) (o : t) :
  exists ws,
    contents (file_ (calls cs o)) = contents (file_ o) ++ ws
    /\ decode ws = Some (flat_map (blocks_of (only_final_ o)) cs).
Proof.
  revert o. unfold calls. induction cs as [|c cs IH]; intros o; simpl.
  - exists []. now rewrite app_nil_r.
  - destruct (contents_call o c) as (ws & Hc & Hw).
    destruct (IH (call o c)) as (ws' & Hc' & Hw').
    exists (ws ++ ws'). split.
    + now rewrite Hc', Hc, app_assoc.
    + rewrite only_final_call in Hw'. now apply decode_app.
Qed.

Lemma contents_grow (o : t) (c : Call) :
  exists ws, contents (file_ (call o c)) = contents (file_ o) ++ ws.
Proof. destruct (contents_call o c) as (ws & H & _). eauto. Qed.

(** X23: the writer only appends: after any run of calls, what the file
    held before is a prefix of what it holds, and the only_final setting is
    as before. *)
Theorem writer_only_appends (cs : list Call) (o : t) :
  (exists ws,
      contents (file_ (calls cs o)) = contents (file_ o) ++ ws)
  /\ only_final_ (calls cs o) = only_final_ o.
Proof.
  split; [|apply only_final_calls].
  unfold calls. revert o. induction cs as [|c cs IH]; intros o; simpl.
  - exists []. now rewrite app_nil_r.
  - destruct (IH (call o c)) as (ws & Hws).
    destruct (contents_grow o c) as (ws' & Hws').
    exists (ws' ++ ws). now rewrite Hws, Hws', app_assoc.
Qed.

(** X24: at_eventend leaves nothing unflushed: everything handed to the
    file so far, the event-end line included, is behind the flush, whatever
    was pending before the call. *)
Theorem event_end_flushes_everything
    (particles : Particles.t) (event_number : Z) (impact_parameter : Q)
    (o : t) :
  pending (file_ (at_eventend particles event_number impact_parameter o)) = []
  /\ exists ws,
       flushed (file_ (at_eventend particles event_number impact_parameter o))
       = contents (file_ o)
         ++ ws ++ [FwriteChar "f"%char; WriteInt event_number;
                   WriteDouble impact_parameter].
Proof.
  split; [reflexivity|].
  unfold at_eventend.
  destruct (only_final_ o).
  - exists [FwriteChar "p"%char; WriteSize (particles_size particles);
            WriteParticles particles].
    unfold write_block, on_file, fflush, fwrite, contents.
    cbn [file_ flushed pending]. rewrite <- !app_assoc. reflexivity.
  - exists [].
    unfold on_file, fflush, fwrite, contents.
    cbn [file_ flushed pending]. rewrite <- !app_assoc. reflexivity.
Qed.

End BinaryOutputParticlesFacts.

(** * Witnesses of the further properties *)

Lemma choose_channel_without_selectable_branch_witness :
  ActionMethods.choose_channel (1 # 2) MoreExamples.nothing_to_select
  = selection_failure MoreExamples.nothing_to_select 0.
Proof.
  apply (choose_channel_without_selectable_branch (1 # 2)
           MoreExamples.nothing_to_select).
  constructor; [reflexivity | constructor].
Defined.

Lemma smaller_draws_are_served_too_witness :
  exists l,
    outcome (ActionMethods.choose_channel (1 # 4) Examples.two_channels)
    = Returned l.
Proof.
  apply (smaller_draws_are_served_too (1 # 4) (3 # 10) Examples.two_channels
           (ProcessBranch.particle_list Examples.formation)).
  - evaluate.
  - reflexivity.
Defined.

Lemma snapshots_of_the_pool_are_valid_witness :
  ActionMethods.is_valid MoreExamples.pool MoreExamples.collision
  = mkRun [] MoreExamples.collision (Returned true).
Proof.
  apply (snapshots_of_the_pool_are_valid MoreExamples.pool
           MoreExamples.collision).
  constructor; [reflexivity|]. constructor; [reflexivity | constructor].
Defined.

Lemma removal_of_an_incoming_particle_invalidates_witness :
  ActionMethods.is_valid
    (Particles.mk
       (delete (ParticleData.id MoreExamples.left)
          (Particles.data_ MoreExamples.pool)))
    MoreExamples.collision
  = mkRun [] MoreExamples.collision (Returned false).
Proof.
  apply (removal_of_an_incoming_particle_invalidates MoreExamples.pool
           MoreExamples.collision MoreExamples.left).
  left. reflexivity.
Defined.

Lemma change_of_id_process_invalidates_witness :
  ActionMethods.is_valid
    (Particles.mk
       (<[ParticleData.id MoreExamples.left := MoreExamples.left_scattered]>
          (Particles.data_ MoreExamples.pool)))
    MoreExamples.collision
  = mkRun [] MoreExamples.collision (Returned false).
Proof.
  apply (change_of_id_process_invalidates MoreExamples.pool
           MoreExamples.collision MoreExamples.left
           MoreExamples.left_scattered).
  - left. reflexivity.
  - refute.
Defined.

Lemma other_particles_do_not_matter_witness :
  ActionMethods.is_valid
    (Particles.mk
       (<[7%Z := MoreExamples.other]> (Particles.data_ MoreExamples.pool)))
    MoreExamples.collision
  = ActionMethods.is_valid MoreExamples.pool MoreExamples.collision
  /\ ActionMethods.is_valid
       (Particles.mk (delete 7%Z (Particles.data_ MoreExamples.pool)))
       MoreExamples.collision
     = ActionMethods.is_valid MoreExamples.pool MoreExamples.collision.
Proof.
  apply (other_particles_do_not_matter MoreExamples.pool
           MoreExamples.collision 7%Z MoreExamples.other).
  intros part [<-|[<-|[]]]; refute.
Defined.


(** * The float members under IEEE arithmetic *)

Module IeeeFacts.
Import Ieee.

(** ** The cached total weight *)








(** ** The channel selection *)


Lemma float_choose_channel_run (r : F64.t) (a : Action.t) :
  choose_channel r a
  = match choose_channel_loop (Action.total_weight_ a) r
            (Action.subprocesses_ a) F32.zero with
    | (_, Some proc) => mkRun [] a (Returned (ProcessBranch.particle_list proc))
    | (p, None) => selection_failure a p
    end.
Proof. reflexivity. Qed.


Lemma float_loop_none_reached (W : F32.t) (r : F64.t)
    (l : ProcessBranchList) :
  Forall (fun b => skipped b = false) l ->
  forall acc : F32.t,
    (forall j, (1 <= j <= length l)%nat ->
       ~ reached r
           (fold_left
              (fun acc b => F32.add acc (F32.div (ProcessBranch.weight b) W))
              (firstn j l) acc)) ->
    choose_channel_loop W r l acc
    = (fold_left
         (fun acc b => F32.add acc (F32.div (ProcessBranch.weight b) W))
         l acc, None).
Proof.
  unfold reached.
  induction 1 as [|b rest Hb _ IH]; intros acc Hnone.
  - reflexivity.
  - simpl. rewrite Hb.
    destruct (F64.leb r
                (F64.of_float
                   (F32.add acc (F32.div (ProcessBranch.weight b) W))))
      eqn:E.
    { exfalso. apply (Hnone 1%nat ltac:(simpl; lia)). exact E. }
    apply IH. intros j Hj. apply (Hnone (S j)). simpl. lia.
Qed.

Lemma float_loop_ignores_skipped (W : F32.t) (r : F64.t)
    (l : ProcessBranchList) :
  forall acc,
    choose_channel_loop W r (selectable_branches l) acc
    = choose_channel_loop W r l acc.
Proof.
  unfold selectable_branches.
  induction l as [|b rest IH]; intros acc; simpl.
  - reflexivity.
  - destruct (skipped b) eqn:Hb; simpl.
    + apply IH.
    + rewrite Hb.
      destruct (F64.leb r
                  (F64.of_float
                     (F32.add acc (F32.div (ProcessBranch.weight b) W))));
        [reflexivity | apply IH].
Qed.

Lemma selectable_are_not_skipped (l : ProcessBranchList) :
  Forall (fun b => skipped b = false) (selectable_branches l).
Proof.
  unfold selectable_branches.
  induction l as [|b rest IH]; simpl; [constructor|].
  destruct (skipped b) eqn:Hb; simpl; [exact IH|].
  constructor; [exact Hb | exact IH].
Qed.



(** C10, amended: the selection loop skips empty and invalid-placeholder
    branches, yet their weights stay in the cached total W that divides
    every weight.  The cumulative probability is therefore accumulated
    over the selectable branches alone, and every draw r that none of
    these cumulative values reaches (r <= cumulative is false for each)
    ends in the fatal diagnostic, which carries the last of them, and in
    the exception.  With a selectable branch of weight 1 and a placeholder
    of weight 1, where the total 2 is exact and the only cumulative value
    is 1/2, the draw 3/4 is such a draw: no rounding is involved.  The
    bound (W - w_inv)/W itself is not the threshold: the float cumulative
    can lie above it. *)
Theorem abort_above_the_selectable_cumulative (r : F64.t) (a : Action.t) :
  (forall j,
     (1 <= j <= length (selectable_branches (Action.subprocesses_ a)))%nat ->
     ~ reached r
         (cumulative (Action.weight a)
            (selectable_branches (Action.subprocesses_ a)) j)) ->
  choose_channel r a
  = selection_failure a
      (cumulative (Action.weight a)
         (selectable_branches (Action.subprocesses_ a))
         (length (selectable_branches (Action.subprocesses_ a)))).
Proof.
  unfold cumulative, Action.weight. intros Hnone.
  rewrite float_choose_channel_run, <- float_loop_ignores_skipped.
  rewrite (float_loop_none_reached _ r _
             (selectable_are_not_skipped (Action.subprocesses_ a))
             F32.zero Hnone).
  now rewrite firstn_all.
Qed.

(** C10 as stated fails just above the bound: with a selectable branch of
    weight 1 and a placeholder of weight 2 the cached total 3 is the exact
    sum of the stored weights and the skipped weight is 2, the draw
    11184811/2^25 lies strictly between (W - w_inv)/W = 1/3 and 1, and
    choose_channel returns the selectable branch instead of reaching the
    fatal path. *)
Lemma draw_above_the_bound_is_served :
  value (Action.weight Examples.one_and_heavy_placeholder)
  == arithmetic_sum (Action.subprocesses_ Examples.one_and_heavy_placeholder)
  /\ arithmetic_sum
       (skipped_branches
          (Action.subprocesses_ Examples.one_and_heavy_placeholder)) == 2
  /\ (value (Action.weight Examples.one_and_heavy_placeholder) - 2)
     / value (Action.weight Examples.one_and_heavy_placeholder)
     < value Examples.third_as_float
  /\ value Examples.third_as_float < 1
  /\ choose_channel Examples.third_as_float Examples.one_and_heavy_placeholder
     = mkRun [] Examples.one_and_heavy_placeholder
         (Returned (ProcessBranch.particle_list Examples.unit_branch)).
Proof.
  repeat split; reflexivity.
Qed.

(** ** The two-body kinematics *)





Section Kinematics.
Variable sqrt_s : Action.t -> F64.t.
Variable sample_resonance_mass :
  ParticleType.t -> ParticleType.t -> F64.t -> F64.t.
Variable phitheta : ThreeVector.t.

Local Abbreviation run a :=
  (sample_cms_momenta sqrt_s sample_resonance_mass phitheta a).


End Kinematics.


(** ** Witnesses *)


Lemma abort_above_the_selectable_cumulative_witness :
  (value (Action.weight Examples.one_and_placeholder)
   == arithmetic_sum (Action.subprocesses_ Examples.one_and_placeholder)
   /\ 0 < arithmetic_sum
            (skipped_branches
               (Action.subprocesses_ Examples.one_and_placeholder))
   /\ value Examples.three_quarters < 1)
  /\ choose_channel Examples.three_quarters Examples.one_and_placeholder
     = selection_failure Examples.one_and_placeholder
         (cumulative (Action.weight Examples.one_and_placeholder)
            (selectable_branches
               (Action.subprocesses_ Examples.one_and_placeholder))
            (length
               (selectable_branches
                  (Action.subprocesses_ Examples.one_and_placeholder)))).
Proof.
  split; [repeat split; reflexivity|].
  apply (abort_above_the_selectable_cumulative Examples.three_quarters
           Examples.one_and_placeholder).
  intros j Hj. assert (j = 1%nat) as -> by (vm_compute in Hj; lia).
  intro H. vm_compute in H. discriminate H.
Defined.


End IeeeFacts.
